(** * Dream Market: the combat and progression core of [dream_market.py]

    A shallow embedding of the classes [Inventory], [Player], [Enemy] and
    [Combat] of [src/dream_market.py], and the properties of the written
    specification that concern them.

    Conventions of the embedding.
    - Python integers are [Z].  [int(x / 2)] truncates towards zero, so it is
      [Z.quot], not [Z.div]; the two agree on the non-negative stats the game
      produces ([int_half_floor]).
    - Strings are [string] over ASCII; [str.lower], [str.strip] and
      [str.split] are written out for the ASCII range.
    - Dictionaries ([flags], [class_resource], [rewrite_effects]) are [gmap]s
      with string keys.
    - Every [print] appends one [Narration] to the output; the constructors
      stand for the message texts and carry their interpolated values.
    - [random] is an entropy tape [rand : nat -> Z] read at a cursor kept in
      the state; [input()] pops a line of [stdin] and raises [SystemExit]
      through [prompt] when the input is exhausted.
    - Objects are mutated in place in the source; here the [Combat] record
      owns the single [Player] and [Enemy] of the fight and every method
      returns the updated record, so the player observed after [run] is the
      object the caller passed in. *)

From Stdlib Require Import ZArith String Ascii List Lia Bool.
From stdpp Require Import base gmap strings list.

Local Open Scope string_scope.
Local Open Scope list_scope.
Local Open Scope Z_scope.

(** ** Python primitives *)

(** [int(x / 2)]: true division followed by truncation towards zero. *)
Definition int_half (x : Z) : Z := Z.quot x 2.

(** [int(x * 2.5)], [int(x * 1.5)], [int(x * 0.5)]: the multipliers are exact
    binary fractions, so the product is exact for stats of game magnitude. *)
Definition int_times_2_5 (x : Z) : Z := Z.quot (5 * x) 2.
Definition int_times_1_5 (x : Z) : Z := Z.quot (3 * x) 2.
Definition int_times_0_5 (x : Z) : Z := Z.quot x 2.

(** [int(base * 1.8)], computed on the exact rational 9/5. *)
Definition int_times_1_8 (x : Z) : Z := Z.quot (9 * x) 5.

(** [random.random()] yields [k / 2^53] for the integer [k] drawn from the
    tape; [int(s * (1 + r * 0.5))] is computed on exact rationals (the
    rounding of the floating product is not modelled). *)
Definition two53 : Z := 2 ^ 53.
Definition int_scaled (s k : Z) : Z := Z.quot (s * (2 * two53 + k)) (2 * two53).

Definition is_space (c : ascii) : bool :=
  let n := nat_of_ascii c in
  ((9 <=? n)%nat && (n <=? 13)%nat) || ((28 <=? n)%nat && (n <=? 32)%nat).

Definition lower_ascii (c : ascii) : ascii :=
  let n := nat_of_ascii c in
  if ((65 <=? n)%nat && (n <=? 90)%nat) then ascii_of_nat (n + 32) else c.

(** [str.lower()] *)
Fixpoint lower (s : string) : string :=
  match s with
  | EmptyString => EmptyString
  | String c r => String (lower_ascii c) (lower r)
  end.

Fixpoint rev_string_onto (s acc : string) : string :=
  match s with
  | EmptyString => acc
  | String c r => rev_string_onto r (String c acc)
  end.

Definition rev_string (s : string) : string := rev_string_onto s EmptyString.

Fixpoint lstrip (s : string) : string :=
  match s with
  | EmptyString => EmptyString
  | String c r => if is_space c then lstrip r else s
  end.

(** [str.strip()] *)
Definition strip (s : string) : string :=
  rev_string (lstrip (rev_string (lstrip s))).

(** [str.split()] with no separator: maximal runs of non-blank characters.
    [cur] is the token being read, reversed. *)
Fixpoint split_from (s : string) (cur : string) : list string :=
  match s with
  | EmptyString =>
      match cur with EmptyString => [] | _ => [rev_string cur] end
  | String c r =>
      if is_space c
      then match cur with
           | EmptyString => split_from r EmptyString
           | _ => rev_string cur :: split_from r EmptyString
           end
      else split_from r (String c cur)
  end.

Definition split (s : string) : list string := split_from s EmptyString.

(** [" ".join(tokens)] *)
Fixpoint join_space (tokens : list string) : string :=
  match tokens with
  | [] => EmptyString
  | [t] => t
  | t :: rest => (t ++ " " ++ join_space rest)%string
  end.

(** [s.startswith(pre)] *)
Definition startswith (s pre : string) : bool := String.prefix pre s.

(** ** Output, outcomes and exceptions *)

(** One constructor per message the combat core prints. *)
Inductive Narration :=
| SayLevelUp (level : Z)
| SayCombatHeader (pname ename : string)
| SayStatus (pname class_name : string)
    (level hp max_hp sanity str agi mag xp : Z) (equipped : option string)
| SayEnemyHP (ename : string) (hp max_hp : Z)
| SayOptions
| SayPromptText (text : string)
| SayInterrupted
| SayNotValidNone
| SayUseWhat
| SayNoItem (item_name : string)
| SayElixir (amt : Z)
| SayCalmMist (amt : Z)
| SayFearShard (ename : string) (dmg : Z)
| SayFearShardInert
| SayNothingHappens (item_name : string)
| SayInventoryEmpty
| SayInventory (lines : list (string * Z * string))
| SayEscaped
| SayPulledBack
| SayNotValid
| SayCritical
| SayYouHit (ename : string) (base : Z)
| SayYouMiss
| SayBrace
| SayNoTools
| SayExtracted
| SayExtractionFalters
| SayAlreadyRewritten
| SayRewrite
| SayRewriteFails
| SayCollapseRisk
| SayOnslaught (dmg cost : Z)
| SayDreamSpark (dmg : Z)
| SayNothingNotable
| SayRewriteHolds
| SayBellow (ename : string) (val : Z)
| SaySnare (ename : string) (loss : Z)
| SayEnemyHit (ename : string) (base : Z)
| SayEnemyMiss (ename : string)
| SayUnmade
| SayDefeated (ename : string)
| SayDrop (drop : string).

(** The strings ['escaped'], ['player_dead'], ['enemy_dead'] returned by
    [Combat.run]; Python's [None] is [None]. *)
Inductive Outcome := escaped | player_dead | enemy_dead.

Inductive Exn := IndexError | SystemExit (code : Z).

(** Values stored in [Player.flags]: story flags hold [True], [defend_tmp]
    holds the saved agility.  [bool] is a subtype of [int] in Python. *)
Inductive PyVal := VBool (b : bool) | VInt (z : Z).

Definition int_of_val (v : PyVal) : Z :=
  match v with
  | VBool true => 1
  | VBool false => 0
  | VInt z => z
  end.

(** ** Items *)

Inductive UseFn := heal_potion_use | sanity_potion_use | fear_shard_use.

Module Item.
Record t := mk {
  name : string;
  desc : string;
  use_fn : option UseFn;
  stackable : bool
}.
End Item.

Definition Dream_Elixir : Item.t :=
  Item.mk "Dream Elixir" "Restores 30 HP." (Some heal_potion_use) true.
Definition Calm_Mist : Item.t :=
  Item.mk "Calm Mist" "Restores 25 Sanity." (Some sanity_potion_use) true.
Definition Fear_Shard : Item.t :=
  Item.mk "Fear Shard" "A sliver of dread. Use in combat to damage enemies."
    (Some fear_shard_use) true.
Definition Hope_Seed : Item.t :=
  Item.mk "Hope Seed" "A tiny mote of hope. Can pacify weak nightmares."
    None true.
Definition Broker_Ledger : Item.t :=
  Item.mk "Broker Ledger" "Record of transactions; required for one ending."
    None false.

(** ** Inventory *)

Module Inventory.
(** [self.items] *)
Definition t := list Item.t.

Definition add (item : Item.t) (items : t) : t := items ++ [item].

(** [remove]: pops the first item whose lower-cased name equals the
    lower-cased argument; [None] when there is none. *)
Fixpoint remove (item_name : string) (items : t) : option (Item.t * t) :=
  match items with
  | [] => None
  | it :: rest =>
      if String.eqb (lower (Item.name it)) (lower item_name)
      then Some (it, rest)
      else match remove item_name rest with
           | Some (found, rest') => Some (found, it :: rest')
           | None => None
           end
  end.

(** The [counts] dictionary of [list], in insertion order. *)
Fixpoint bump (name : string) (counts : list (string * Z)) : list (string * Z) :=
  match counts with
  | [] => [(name, 1)]
  | (n, c) :: rest =>
      if String.eqb n name then (n, c + 1) :: rest
      else (n, c) :: bump name rest
  end.

Definition counts (items : t) : list (string * Z) :=
  fold_left (fun acc it => bump (Item.name it) acc) items [].

Fixpoint first_desc (name : string) (items : t) : string :=
  match items with
  | [] => ""
  | it :: rest =>
      if String.eqb (Item.name it) name then Item.desc it
      else first_desc name rest
  end.

Definition list (items : t) : Narration :=
  match items with
  | [] => SayInventoryEmpty
  | _ => SayInventory
           (map (fun nc => (fst nc, snd nc, first_desc (fst nc) items))
                (counts items))
  end.
End Inventory.


(** ** Player *)

Inductive ClassKey :=
| night_surgeon | lucid_magician | insomniac
| broker_novice | night_watch | somnomancer.

(** An entry of [CLASSES]. *)
Record ClassDef := {
  cd_key : ClassKey;
  cd_name : string;
  cd_health : Z;
  cd_strength : Z;
  cd_agility : Z;
  cd_magic : Z;
  cd_sanity : Z
}.

Definition CLASSES : list ClassDef := [
  Build_ClassDef night_surgeon "Night Surgeon" 90 8 6 6 80;
  Build_ClassDef lucid_magician "Lucid Magician" 70 4 7 12 90;
  Build_ClassDef insomniac "Insomniac" 60 10 8 4 120;
  Build_ClassDef broker_novice "Broker (Novice)" 80 6 8 6 100;
  Build_ClassDef night_watch "Night Watch" 100 9 5 3 100;
  Build_ClassDef somnomancer "Somnomancer" 65 3 6 11 95
].

Module Player.
Record t := mk {
  name : string;
  cls : ClassKey;
  class_name : string;
  max_health : Z;
  health : Z;
  sanity : Z;
  strength : Z;
  agility : Z;
  magic : Z;
  level : Z;
  xp : Z;
  inventory : Inventory.t;
  equipped : option Item.t;
  alive : bool;
  flags : gmap string PyVal;
  class_resource : gmap string bool
}.

(** [Player.__init__] *)
Definition init (name : string) (c : ClassDef) : t :=
  mk name (cd_key c) (cd_name c) (cd_health c) (cd_health c) (cd_sanity c)
     (cd_strength c) (cd_agility c) (cd_magic c) 1 0 [] None true ∅ ∅.

Definition set_health (v : Z) (p : t) : t :=
  mk (name p) (cls p) (class_name p) (max_health p) v (sanity p)
     (strength p) (agility p) (magic p) (level p) (xp p) (inventory p)
     (equipped p) (alive p) (flags p) (class_resource p).

Definition set_sanity (v : Z) (p : t) : t :=
  mk (name p) (cls p) (class_name p) (max_health p) (health p) v
     (strength p) (agility p) (magic p) (level p) (xp p) (inventory p)
     (equipped p) (alive p) (flags p) (class_resource p).

Definition set_agility (v : Z) (p : t) : t :=
  mk (name p) (cls p) (class_name p) (max_health p) (health p) (sanity p)
     (strength p) v (magic p) (level p) (xp p) (inventory p)
     (equipped p) (alive p) (flags p) (class_resource p).

Definition set_xp (v : Z) (p : t) : t :=
  mk (name p) (cls p) (class_name p) (max_health p) (health p) (sanity p)
     (strength p) (agility p) (magic p) (level p) v (inventory p)
     (equipped p) (alive p) (flags p) (class_resource p).

Definition set_inventory (v : Inventory.t) (p : t) : t :=
  mk (name p) (cls p) (class_name p) (max_health p) (health p) (sanity p)
     (strength p) (agility p) (magic p) (level p) (xp p) v
     (equipped p) (alive p) (flags p) (class_resource p).

Definition set_alive (v : bool) (p : t) : t :=
  mk (name p) (cls p) (class_name p) (max_health p) (health p) (sanity p)
     (strength p) (agility p) (magic p) (level p) (xp p) (inventory p)
     (equipped p) v (flags p) (class_resource p).

Definition set_flags (v : gmap string PyVal) (p : t) : t :=
  mk (name p) (cls p) (class_name p) (max_health p) (health p) (sanity p)
     (strength p) (agility p) (magic p) (level p) (xp p) (inventory p)
     (equipped p) (alive p) v (class_resource p).

Definition set_class_resource (v : gmap string bool) (p : t) : t :=
  mk (name p) (cls p) (class_name p) (max_health p) (health p) (sanity p)
     (strength p) (agility p) (magic p) (level p) (xp p) (inventory p)
     (equipped p) (alive p) (flags p) v.

(** [status]: the values interpolated into the four (or five) lines. *)
Definition status (p : t) : Narration :=
  SayStatus (name p) (class_name p) (level p) (health p) (max_health p)
    (sanity p) (strength p) (agility p) (magic p) (xp p)
    (match equipped p with Some it => Some (Item.name it) | None => None end).

(** [modify_health]:
    [self.health = max(0, min(self.max_health, self.health + amt))], then
    [alive] is cleared when the result is 0. *)
Definition modify_health (amt : Z) (p : t) : t :=
  let p1 := set_health (Z.max 0 (Z.min (max_health p) (health p + amt))) p in
  if health p1 =? 0 then set_alive false p1 else p1.

(** [modify_sanity]: [self.sanity += amt], then [alive] is cleared when the
    result is [<= -50]. *)
Definition modify_sanity (amt : Z) (p : t) : t :=
  let p1 := set_sanity (sanity p + amt) p in
  if sanity p1 <=? -50 then set_alive false p1 else p1.

(** One pass through the body of the [while] of [gain_xp]. *)
Definition level_up (p : t) : t :=
  mk (name p) (cls p) (class_name p) (max_health p + 10) (health p) (sanity p)
     (strength p + 1) (agility p + 1) (magic p + 1) (level p + 1)
     (xp p - 100 * level p) (inventory p)
     (equipped p) (alive p) (flags p) (class_resource p).

(** The [while self.xp >= 100 * self.level] loop, with the narration of each
    pass. *)
Fixpoint gain_xp_loop (fuel : nat) (p : t) : t * list Narration :=
  match fuel with
  | O => (p, [])
  | S fuel' =>
      if xp p >=? 100 * level p then
        let p1 := level_up p in
        let '(p2, out) := gain_xp_loop fuel' p1 in
        (p2, SayLevelUp (level p1) :: out)
      else (p, [])
  end.

(** A bound on the number of passes: below level 1 every pass raises the
    level, from level 1 on every pass takes at least 100 from a positive
    [xp].  [gain_xp_loop_exits] shows the loop has left by then. *)
Definition gain_xp_passes (p : t) : nat :=
  let l := level p in
  let below := if l <=? 0 then 50 * l * (l - 1) else 0 in
  (Z.to_nat (1 - l) + Z.to_nat ((xp p + below) / 100))%nat.

(** [gain_xp] *)
Definition gain_xp (amount : Z) (p : t) : t * list Narration :=
  let p1 := set_xp (xp p + amount) p in
  gain_xp_loop (gain_xp_passes p1) p1.
End Player.

(** ** Enemy *)

Inductive Special := nightmare_bellow | dream_snare.

Module Enemy.
Record t := mk {
  name : string;
  hp : Z;
  max_hp : Z;
  strength : Z;
  agility : Z;
  magic : Z;
  desc : string;
  difficulty : Z;
  special : list (string * Special);
  alive : bool
}.

(** [Enemy.__init__] *)
Definition init (name : string) (hp strength agility magic : Z) (desc : string)
    (difficulty : Z) (special : list (string * Special)) : t :=
  mk name hp hp strength agility magic desc difficulty special true.

Definition set_hp (v : Z) (e : t) : t :=
  mk (name e) v (max_hp e) (strength e) (agility e) (magic e) (desc e)
     (difficulty e) (special e) (alive e).

Definition set_alive (v : bool) (e : t) : t :=
  mk (name e) (hp e) (max_hp e) (strength e) (agility e) (magic e) (desc e)
     (difficulty e) (special e) v.

(** [take_damage] *)
Definition take_damage (amount : Z) (e : t) : t :=
  let e1 := set_hp (Z.max 0 (hp e - amount)) e in
  if hp e1 =? 0 then set_alive false e1 else e1.
End Enemy.

(** The bodies of the two enemy specials, as they act on the player.
    [nightmare_bellow]: [val = 10 + enemy.magic; player.modify_sanity(-val)].
    [dream_snare]: [player.agility = max(1, player.agility - 2)]. *)
Definition apply_special (sp : Special) (e : Enemy.t) (p : Player.t)
  : Player.t * Narration :=
  match sp with
  | nightmare_bellow =>
      let val := 10 + Enemy.magic e in
      (Player.modify_sanity (- val) p, SayBellow (Enemy.name e) val)
  | dream_snare =>
      let loss := 2 in
      (Player.set_agility (Z.max 1 (Player.agility p - loss)) p,
       SaySnare (Enemy.name e) loss)
  end.

(** The encounter tables of [AREAS] and the boss of [area_loop]. *)
Definition Pixel_Wraith : Enemy.t :=
  Enemy.init "Pixel Wraith" 30 6 8 4 "A jagged ghost of a corrupted sprite."
    1 [("bellow", nightmare_bellow)].
Definition Token_Thief : Enemy.t :=
  Enemy.init "Token Thief" 35 7 9 3
    "A quick-handed dream that steals small comforts." 1 [].
Definition Somber_Vendor : Enemy.t :=
  Enemy.init "Somber Vendor" 40 5 6 8
    "A vendor whose wares sadden those who linger." 2 [("snare", dream_snare)].
Definition Sleep_Poltergeist : Enemy.t :=
  Enemy.init "Sleep-Poltergeist" 45 9 5 6
    "A heavy-handed nightmare that throws furniture." 2 [].
Definition Atrium_Warden : Enemy.t :=
  Enemy.init "Atrium Warden" 75 12 8 10
    "A guardian formed of contracts and lost promises." 3
    [("bellow", nightmare_bellow); ("snare", dream_snare)].
Definition Slumber_Contract : Enemy.t :=
  Enemy.init "The Slumber Contract" 110 14 9 12
    "A contract made sentient, holding many bargains." 4
    [("bellow", nightmare_bellow)].

(** ** The combat engine *)

Module Combat.
Record t := mk {
  player : Player.t;
  enemy : Enemy.t;
  turn_count : Z;
  rewrite_effects : gmap string bool
}.

(** [Combat.__init__] *)
Definition init (p : Player.t) (e : Enemy.t) : t := mk p e 0 ∅.
End Combat.

(** The state a combat runs in: the [Combat] object, the lines still to be
    read from the terminal, the number of random draws made so far and the
    text printed so far. *)
Record State := mkState {
  self : Combat.t;
  stdin : list string;
  draws : nat;
  stdout : list Narration
}.

(** A computation ends normally, raises, or (for the loop of [run] only)
    stops for lack of fuel. *)
Inductive Result (A : Type) :=
| Done (a : A) (s : State)
| Raised (e : Exn) (s : State)
| OutOfFuel.
Arguments Done {A} a s.
Arguments Raised {A} e s.
Arguments OutOfFuel {A}.

Definition M (A : Type) : Type := State -> Result A.

Definition ret {A} (a : A) : M A := fun s => Done a s.

Definition bind {A B} (m : M A) (k : A -> M B) : M B :=
  fun s =>
    match m s with
    | Done a s' => k a s'
    | Raised e s' => Raised e s'
    | OutOfFuel => OutOfFuel
    end.

Definition raise {A} (e : Exn) : M A := fun s => Raised e s.

Notation "'let*' x ':=' m 'in' k" := (bind m (fun x => k))
  (at level 10, x pattern, m at level 100, k at level 200).

Definition print (n : Narration) : M unit :=
  fun s => Done tt (mkState (self s) (stdin s) (draws s) (stdout s ++ [n])).

Definition get_player : M Player.t :=
  fun s => Done (Combat.player (self s)) s.
Definition get_enemy : M Enemy.t :=
  fun s => Done (Combat.enemy (self s)) s.
Definition get_rewrite_effects : M (gmap string bool) :=
  fun s => Done (Combat.rewrite_effects (self s)) s.

Definition set_player (p : Player.t) : M unit :=
  fun s =>
    let c := self s in
    Done tt (mkState
      (Combat.mk p (Combat.enemy c) (Combat.turn_count c) (Combat.rewrite_effects c))
      (stdin s) (draws s) (stdout s)).

Definition set_enemy (e : Enemy.t) : M unit :=
  fun s =>
    let c := self s in
    Done tt (mkState
      (Combat.mk (Combat.player c) e (Combat.turn_count c) (Combat.rewrite_effects c))
      (stdin s) (draws s) (stdout s)).

Definition set_rewrite_effects (r : gmap string bool) : M unit :=
  fun s =>
    let c := self s in
    Done tt (mkState
      (Combat.mk (Combat.player c) (Combat.enemy c) (Combat.turn_count c) r)
      (stdin s) (draws s) (stdout s)).

Definition incr_turn_count : M unit :=
  fun s =>
    let c := self s in
    Done tt (mkState
      (Combat.mk (Combat.player c) (Combat.enemy c) (Combat.turn_count c + 1)
         (Combat.rewrite_effects c))
      (stdin s) (draws s) (stdout s)).

(** [input("> ")]: the next line, or [None] at end of input ([EOFError]). *)
Definition input : M (option string) :=
  fun s =>
    match stdin s with
    | [] => Done None s
    | line :: rest =>
        Done (Some line) (mkState (self s) rest (draws s) (stdout s))
    end.

(** [prompt(options=None, text=...)], the only form the combat uses: it
    prints [text], returns the stripped line (never [None]), and on end of
    input prints the notice and calls [sys.exit(0)]. *)
Definition prompt (text : string) : M string :=
  let* _ := print (SayPromptText text) in
  let* line := input in
  match line with
  | Some l => ret (strip l)
  | None => let* _ := print SayInterrupted in raise (SystemExit 0)
  end.

Section Random.

(** The entropy tape: the integer behind the [n]-th call into [random]. *)
Variable rand : nat -> Z.

Definition draw : M Z :=
  fun s => Done (rand (draws s))
             (mkState (self s) (stdin s) (S (draws s)) (stdout s)).

(** [roll(d)] = [random.randint(1, d)] *)
Definition roll (d : Z) : M Z :=
  let* z := draw in ret (1 + z mod d).

(** [random.randint(a, b)] *)
Definition randint (a b : Z) : M Z :=
  let* z := draw in ret (a + z mod (b - a + 1)).

(** The numerator [k] of [random.random()] = [k / 2^53]. *)
Definition random_k : M Z :=
  let* z := draw in ret (z mod two53).

(** [random.choice(seq)]; an empty sequence raises [IndexError]. *)
Definition choice {A} (seq : list A) : M A :=
  match seq with
  | [] => raise IndexError
  | x :: _ =>
      let* z := draw in
      ret (nth (Z.to_nat (z mod Z.of_nat (length seq))) seq x)
  end.

(** [Item.use(player, enemy)] as called from the fight, where [enemy] is the
    live [Enemy] object (truthy), followed by the body of the [use_fn]. *)
Definition item_use (item : Item.t) : M Narration :=
  match Item.use_fn item with
  | Some heal_potion_use =>
      let amt := 30 in
      let* p := get_player in
      let* _ := set_player (Player.modify_health amt p) in
      ret (SayElixir amt)
  | Some sanity_potion_use =>
      let amt := 25 in
      let* p := get_player in
      let* _ := set_player (Player.modify_sanity amt p) in
      ret (SayCalmMist amt)
  | Some fear_shard_use =>
      let* p := get_player in
      let* e := get_enemy in
      let dmg := 20 + int_times_0_5 (Player.magic p) in
      let* _ := set_enemy (Enemy.take_damage dmg e) in
      ret (SayFearShard (Enemy.name e) dmg)
  | None => ret (SayNothingHappens (Item.name item))
  end.

(** [Combat.show_status] *)
Definition show_status : M unit :=
  let* p := get_player in
  let* e := get_enemy in
  let* _ := print (SayCombatHeader (Player.name p) (Enemy.name e)) in
  let* _ := print (Player.status p) in
  print (SayEnemyHP (Enemy.name e) (Enemy.hp e) (Enemy.max_hp e)).

(** [Combat.player_attack] *)
Definition player_attack : M (option Outcome) :=
  let* p := get_player in
  let* e := get_enemy in
  let* r1 := roll 20 in
  let atk_roll := r1 + int_half (Player.strength p) in
  let* r2 := roll 20 in
  let def_roll := r2 + int_half (Enemy.agility e) in
  if atk_roll >=? def_roll then
    let* k := random_k in
    let base := int_scaled (Player.strength p) k in
    let* base :=
      if startswith (lower (Player.class_name p)) "lucid" then
        let* r3 := roll 100 in
        if r3 <? 20 then
          let* _ := print SayCritical in ret (int_times_1_8 base)
        else ret base
      else ret base in
    let* _ := set_enemy (Enemy.take_damage base e) in
    let* _ := print (SayYouHit (Enemy.name e) base) in
    ret None
  else
    let* _ := print SayYouMiss in
    ret None.

(** [Combat.player_defend] *)
Definition player_defend : M (option Outcome) :=
  let* _ := print SayBrace in
  let* p := get_player in
  let old := Player.agility p in
  let p1 := Player.set_agility (Player.agility p + 4) p in
  let* _ := set_player
              (Player.set_flags (<["defend_tmp" := VInt old]> (Player.flags p1)) p1) in
  ret None.

(** [Combat.player_special] *)
Definition player_special : M (option Outcome) :=
  let* p := get_player in
  match Player.cls p with
  | night_surgeon =>
      match Player.class_resource p !! "extracted" with
      | Some _ => let* _ := print SayNoTools in ret None
      | None =>
          let* r := roll 20 in
          if r + Player.magic p >=? 15 then
            let p1 := Player.set_inventory
                        (Inventory.add Fear_Shard (Player.inventory p)) p in
            let* _ := set_player
                        (Player.set_class_resource
                           (<["extracted" := true]> (Player.class_resource p1)) p1) in
            let* _ := print SayExtracted in
            ret None
          else
            let* _ := print SayExtractionFalters in
            ret None
      end
  | lucid_magician =>
      let* rw := get_rewrite_effects in
      match rw !! "rewritten" with
      | Some _ => let* _ := print SayAlreadyRewritten in ret None
      | None =>
          let* r := roll 20 in
          if r + Player.magic p >=? 15 then
            let* _ := set_rewrite_effects (<["enemy_miss_next" := true]> rw) in
            let* _ := print SayRewrite in
            ret None
          else
            let* _ := print SayRewriteFails in
            ret None
      end
  | insomniac =>
      let cost := 20 in
      if Player.sanity p - cost <=? -50 then
        let* _ := print SayCollapseRisk in ret None
      else
        let p1 := Player.modify_sanity (- cost) p in
        let* _ := set_player p1 in
        let dmg := int_times_2_5 (Player.strength p1) in
        let* e := get_enemy in
        let* _ := set_enemy (Enemy.take_damage dmg e) in
        let* _ := print (SayOnslaught dmg cost) in
        ret None
  | _ =>
      let* ok :=
        if Player.magic p >=? 10 then
          let* r := roll 20 in ret (r + Player.magic p >=? 12)
        else ret false in
      if ok then
        let dmg := int_times_1_5 (Player.magic p) in
        let* e := get_enemy in
        let* _ := set_enemy (Enemy.take_damage dmg e) in
        let* _ := print (SayDreamSpark dmg) in
        ret None
      else
        let* _ := print SayNothingNotable in
        ret None
  end.

(** [Combat.player_turn].  [prompt] is called with [options=None] and so
    never returns [None]: the re-prompting branch under
    [if choice is None] cannot be entered and is left out.  [tokens[0]] on
    an empty token list raises [IndexError]. *)
Definition player_turn : M (option Outcome) :=
  let* _ := print SayOptions in
  let* choice := prompt "What do you do? (type command)" in
  let tokens := split choice in
  match tokens with
  | [] => raise IndexError
  | tok0 :: args =>
      let cmd := lower tok0 in
      if String.eqb cmd "attack" then player_attack
      else if String.eqb cmd "defend" then player_defend
      else if String.eqb cmd "use" then
        match args with
        | [] => let* _ := print SayUseWhat in ret None
        | _ =>
            let item_name := join_space args in
            let* p := get_player in
            match Inventory.remove item_name (Player.inventory p) with
            | None => let* _ := print (SayNoItem item_name) in ret None
            | Some (item, rest) =>
                let* _ := set_player (Player.set_inventory rest p) in
                let* msg := item_use item in
                let* _ := print msg in
                ret None
            end
        end
      else if String.eqb cmd "inventory" then
        let* p := get_player in
        let* _ := print (Inventory.list (Player.inventory p)) in
        ret None
      else if String.eqb cmd "special" then player_special
      else if String.eqb cmd "stats" then
        let* p := get_player in
        let* _ := print (Player.status p) in
        ret None
      else if String.eqb cmd "run" then
        let* p := get_player in
        let* e := get_enemy in
        let* r1 := roll 20 in
        let chance := r1 + int_half (Player.agility p) in
        let* r2 := roll 20 in
        let escape := r2 + int_half (Enemy.agility e) in
        if chance >? escape then
          let* _ := print SayEscaped in
          ret (Some escaped)
        else
          let* _ := print SayPulledBack in
          ret None
      else
        let* _ := print SayNotValid in
        ret None
  end.

(** [Enemy.attack_player]: returns the line that [enemy_turn] prints. *)
Definition attack_player : M Narration :=
  let* e := get_enemy in
  let* p := get_player in
  let* r1 := roll 20 in
  let hit_roll := r1 + int_half (Enemy.agility e) in
  let* r2 := roll 20 in
  let evade := r2 + int_half (Player.agility p) in
  if hit_roll >=? evade then
    let* k := random_k in
    let base := int_scaled (Enemy.strength e) k in
    let* _ := set_player (Player.modify_health (- base) p) in
    ret (SayEnemyHit (Enemy.name e) base)
  else ret (SayEnemyMiss (Enemy.name e)).

(** [Enemy.special_move] *)
Definition special_move : M (option Narration) :=
  let* e := get_enemy in
  match Enemy.special e with
  | [] => ret None
  | _ =>
      let* entry := choice (Enemy.special e) in
      let* p := get_player in
      let '(p1, msg) := apply_special (snd entry) e p in
      let* _ := set_player p1 in
      ret (Some msg)
  end.

(** [Combat.enemy_turn] *)
Definition enemy_turn : M unit :=
  let* e := get_enemy in
  if negb (Enemy.alive e) then ret tt
  else
    let* rw := get_rewrite_effects in
    match rw !! "enemy_miss_next" with
    | Some true =>
        let* _ := print SayRewriteHolds in
        set_rewrite_effects (delete "enemy_miss_next" rw)
    | _ =>
        let* res :=
          match Enemy.special e with
          | [] => ret None
          | _ =>
              let* r := roll 100 in
              if r <? 30 then special_move else ret None
          end in
        match res with
        | Some msg => print msg
        | None => let* msg := attack_player in print msg
        end
    end.

(** The block of [Combat.run] under [# revert defend buff if present]:
    [if 'defend_tmp' in self.player.flags:
       self.player.agility = self.player.flags.pop('defend_tmp')]. *)
Definition revert_defend : M unit :=
  let* p := get_player in
  match Player.flags p !! "defend_tmp" with
  | Some old =>
      set_player
        (Player.set_flags (delete "defend_tmp" (Player.flags p))
           (Player.set_agility (int_of_val old) p))
  | None => ret tt
  end.

(** The [while] loop of [Combat.run].  The result is [Some escaped] when the
    loop is left by [return 'escaped'] and [None] when it is left by its
    condition or by [break]. *)
Fixpoint run_loop (fuel : nat) : M (option Outcome) :=
  match fuel with
  | O => fun _ => OutOfFuel
  | S fuel' =>
      let* p := get_player in
      let* e := get_enemy in
      if Player.alive p && Enemy.alive e then
        let* _ := show_status in
        let* res := player_turn in
        match res with
        | Some escaped => ret (Some escaped)
        | _ =>
            let* _ := revert_defend in
            let* e := get_enemy in
            if negb (Enemy.alive e) then ret None
            else
              let* _ := enemy_turn in
              let* p := get_player in
              if negb (Player.alive p) then ret None
              else
                let* _ := incr_turn_count in
                run_loop fuel'
        end
      else ret None
  end.

(** [print] of each narration in turn. *)
Fixpoint print_all (out : list Narration) : M unit :=
  match out with
  | [] => ret tt
  | n :: rest => let* _ := print n in print_all rest
  end.

(** The statements of [Combat.run] after the loop. *)
Definition run_epilogue : M (option Outcome) :=
  let* p := get_player in
  if negb (Player.alive p) then
    let* _ := print SayUnmade in
    ret (Some player_dead)
  else
    let* e := get_enemy in
    if negb (Enemy.alive e) then
      let* _ := print (SayDefeated (Enemy.name e)) in
      let* bonus := randint 0 20 in
      let xp := 20 * Enemy.difficulty e + bonus in
      let '(p1, out) := Player.gain_xp xp p in
      let* _ := set_player p1 in
      let* _ := print_all out in
      let* r := roll 100 in
      let* _ :=
        if r <? 30 * Enemy.difficulty e then
          let* drop := choice [Fear_Shard; Hope_Seed] in
          let* p := get_player in
          let* _ := set_player
                      (Player.set_inventory
                         (Inventory.add drop (Player.inventory p)) p) in
          print (SayDrop (Item.name drop))
        else ret tt in
      ret (Some enemy_dead)
    else ret None.

(** [Combat.run].  Every pass of the loop reads one line, so one more pass
    than there are lines left is all the loop can make
    ([run_never_out_of_fuel]). *)
Definition run : M (option Outcome) :=
  fun s =>
    (let* r := run_loop (S (length (stdin s))) in
     match r with
     | Some o => ret (Some o)
     | None => run_epilogue
     end) s.

End Random.

(** ** Vocabulary of the statements *)

(** [CLASS_KEY_MAP[key]] *)
Definition CLASS_KEY_MAP (key : ClassKey) : ClassDef :=
  match key with
  | night_surgeon => Build_ClassDef night_surgeon "Night Surgeon" 90 8 6 6 80
  | lucid_magician => Build_ClassDef lucid_magician "Lucid Magician" 70 4 7 12 90
  | insomniac => Build_ClassDef insomniac "Insomniac" 60 10 8 4 120
  | broker_novice => Build_ClassDef broker_novice "Broker (Novice)" 80 6 8 6 100
  | night_watch => Build_ClassDef night_watch "Night Watch" 100 9 5 3 100
  | somnomancer => Build_ClassDef somnomancer "Somnomancer" 65 3 6 11 95
  end.

(** A scripted entropy tape: the listed draws, then zeros. *)
Definition tape (l : list Z) : nat -> Z := fun n => nth n l 0.

(** The face shown by the [n]-th draw when it is used as [roll(20)]. *)
Definition d20 (rand : nat -> Z) (n : nat) : Z := 1 + rand n mod 20.

(** The state a computation stops in, when it stops. *)
Definition final_state {A} (r : Result A) : option State :=
  match r with
  | Done _ s => Some s
  | Raised _ s => Some s
  | OutOfFuel => None
  end.

(** A fresh fight, as [area_loop] sets it up: [Combat(player, enemy)] with
    the pending terminal input. *)
Definition start (p : Player.t) (e : Enemy.t) (lines : list string) : State :=
  mkState (Combat.init p e) lines 0 [].

(** Sequences of the mutators of a player and of an enemy. *)
Inductive Mutation :=
| Health (amt : Z)     (* [modify_health(amt)] *)
| Sanity (amt : Z).    (* [modify_sanity(amt)] *)

Definition mutate (p : Player.t) (m : Mutation) : Player.t :=
  match m with
  | Health amt => Player.modify_health amt p
  | Sanity amt => Player.modify_sanity amt p
  end.

Definition mutations (ms : list Mutation) (p : Player.t) : Player.t :=
  fold_left mutate ms p.

Definition damages (ds : list Z) (e : Enemy.t) : Enemy.t :=
  fold_left (fun e d => Enemy.take_damage d e) ds e.

(** The players a sequence of mutators passes through, one after each call,
    and the enemies a sequence of hits passes through. *)
Fixpoint mutation_states (ms : list Mutation) (p : Player.t) : list Player.t :=
  match ms with
  | [] => []
  | m :: rest => mutate p m :: mutation_states rest (mutate p m)
  end.

Fixpoint damage_states (ds : list Z) (e : Enemy.t) : list Enemy.t :=
  match ds with
  | [] => []
  | d :: rest => Enemy.take_damage d e :: damage_states rest (Enemy.take_damage d e)
  end.

(** The condition the alive flag is said to be derived from. *)
Definition player_derived_alive (p : Player.t) : bool :=
  (0 <? Player.health p) && (-50 <? Player.sanity p).

Definition enemy_derived_alive (e : Enemy.t) : bool := 0 <? Enemy.hp e.

(** The number of times [dream_snare] has been narrated. *)
Definition is_snare (n : Narration) : bool :=
  match n with SaySnare _ _ => true | _ => false end.

Definition snares (out : list Narration) : nat :=
  length (filter (fun n => is_snare n = true) out).

(** The agility [dream_snare] leaves. *)
Definition snared (agility : Z) : Z := Z.max 1 (agility - 2).

(** What the proofs about agility track through a fight. *)
Definition view (s : State) : Z * option PyVal * Z * nat :=
  let p := Combat.player (self s) in
  (Player.agility p, Player.flags p !! "defend_tmp", Player.level p,
   snares (stdout s)).

(** The enemy's half of a pass of the loop: [enemy_turn], the check of the
    player, the turn counter and the next pass. *)
Definition enemy_acts (rand : nat -> Z) (fuel : nat) : M (option Outcome) :=
  let* _ := enemy_turn rand in
  let* p := get_player in
  if negb (Player.alive p) then ret None
  else let* _ := incr_turn_count in run_loop rand fuel.

(** What is left of a pass of the loop once the player's turn has not
    escaped: the revert of the defend buff, then the enemy's half when the
    enemy is alive. *)
Definition rest_of_pass (rand : nat -> Z) (fuel : nat) : M (option Outcome) :=
  let* _ := revert_defend in
  let* e := get_enemy in
  if negb (Enemy.alive e) then ret None else enemy_acts rand fuel.

(** What [show_status] prints, and what [player_turn] prints before it
    reads the command. *)
Definition status_lines (s : State) : list Narration :=
  let p := Combat.player (self s) in
  let e := Combat.enemy (self s) in
  [SayCombatHeader (Player.name p) (Enemy.name e); Player.status p;
   SayEnemyHP (Enemy.name e) (Enemy.hp e) (Enemy.max_hp e)].

Definition prompt_lines : list Narration :=
  [SayOptions; SayPromptText "What do you do? (type command)"].

(** The player has no pending defend buff. *)
Definition no_defend_tmp (s : State) : Prop :=
  Player.flags (Combat.player (self s)) !! "defend_tmp" = None.

(** From [s] to [s'] the agility was snared [k] times and nothing else
    happened to it, for the [k] snares narrated in between. *)
Definition snared_from (s s' : State) : Prop :=
  exists k : nat,
    view s' = (Nat.iter k snared (Player.agility (Combat.player (self s))), None,
               Player.level (Combat.player (self s)), (snares (stdout s) + k)%nat).

(** The player's turn was a [defend]. *)
Definition defended (s s' : State) : Prop :=
  let p := Combat.player (self s) in
  view s' = (Player.agility p + 4, Some (VInt (Player.agility p)), Player.level p,
             snares (stdout s)).

(** ** The item catalog, the class table by key, and the saved game *)

(** [ITEMS.get(name)]: the catalog is keyed by the exact item names. *)
Definition ITEMS (name : string) : option Item.t :=
  if String.eqb name "Dream Elixir" then Some Dream_Elixir
  else if String.eqb name "Calm Mist" then Some Calm_Mist
  else if String.eqb name "Fear Shard" then Some Fear_Shard
  else if String.eqb name "Hope Seed" then Some Hope_Seed
  else if String.eqb name "Broker Ledger" then Some Broker_Ledger
  else None.

(** The string [c['key']] of a class; [Player.cls] holds it. *)
Definition key_string (k : ClassKey) : string :=
  match k with
  | night_surgeon => "night_surgeon"
  | lucid_magician => "lucid_magician"
  | insomniac => "insomniac"
  | broker_novice => "broker_novice"
  | night_watch => "night_watch"
  | somnomancer => "somnomancer"
  end.

(** The class [load_game] picks for a saved key:
    [CLASS_KEY_MAP.get(key) or next((c for c in CLASSES if c['key'] == key),
    CLASSES[0])]. *)
Definition class_of_saved (key : string) : ClassDef :=
  match find (fun c => String.eqb (key_string (cd_key c)) key) CLASSES with
  | Some c => c
  | None => nth 0 CLASSES (CLASS_KEY_MAP night_surgeon)
  end.

(** The dictionary [save_game] dumps and [load_game] reads back.  The file
    holds it as JSON, which gives back the strings, integers, booleans, the
    list and the string-keyed dictionary it was given; the file system is
    the optional record at [SAVE_PATH]. *)
Record SaveData := mkSave {
  sv_name : string;
  sv_class : string;
  sv_health : Z;
  sv_max_health : Z;
  sv_sanity : Z;
  sv_strength : Z;
  sv_agility : Z;
  sv_magic : Z;
  sv_level : Z;
  sv_xp : Z;
  sv_inventory : list string;
  sv_flags : gmap string PyVal
}.

(** [save_game]: the record written to [SAVE_PATH]. *)
Definition save_game (p : Player.t) : SaveData :=
  mkSave (Player.name p) (key_string (Player.cls p)) (Player.health p)
    (Player.max_health p) (Player.sanity p) (Player.strength p)
    (Player.agility p) (Player.magic p) (Player.level p) (Player.xp p)
    (map Item.name (Player.inventory p)) (Player.flags p).

(** The loop [for itname in data.get('inventory', []): if itname in ITEMS:
    p.inventory.add(ITEMS[itname])]. *)
Fixpoint load_inventory (names : list string) (items : Inventory.t) : Inventory.t :=
  match names with
  | [] => items
  | itname :: rest =>
      match ITEMS itname with
      | Some it => load_inventory rest (Inventory.add it items)
      | None => load_inventory rest items
      end
  end.

(** [load_game]: [None] when there is no file; otherwise a new [Player] of
    the saved class with the saved fields written over it. *)
Definition load_game (file : option SaveData) : option Player.t :=
  match file with
  | None => None
  | Some data =>
      let p := Player.init (sv_name data) (class_of_saved (sv_class data)) in
      Some (Player.mk (Player.name p) (Player.cls p) (Player.class_name p)
              (sv_max_health data) (sv_health data) (sv_sanity data)
              (sv_strength data) (sv_agility data) (sv_magic data)
              (sv_level data) (sv_xp data)
              (load_inventory (sv_inventory data) (Player.inventory p))
              (Player.equipped p) (Player.alive p) (sv_flags data)
              (Player.class_resource p))
  end.

(** ** The save file as [load_game] finds it *)

(** A document as [json.load] decodes it.  [JFloat] is a number written
    with a fraction or an exponent.  An object is the list of the entries
    of the decoded [dict] in its order; the keys of a [dict] are distinct. *)
#[warnings="-register-all"]
Inductive Json :=
| JNull
| JBool (b : bool)
| JInt (z : Z)
| JFloat
| JStr (s : string)
| JArr (items : list Json)
| JObj (entries : list (string * Json)).

(** What is at [SAVE_PATH]: nothing, a file that [json.load] rejects, or a
    file that holds a document.  A path that exists and cannot be opened
    for reading (a directory, a file without permission) is not covered. *)
Inductive SaveFile := NoFile | NotJson | Parsed (data : Json).

(** The exceptions [load_game] lets through.  [json.load] raises
    [JSONDecodeError] (on bytes that are no text, [UnicodeDecodeError]);
    both are [ValueError]s. *)
Inductive LoadError := ValueError | TypeError | KeyError (key : string).

Inductive LoadResult :=
| NoSave                     (* "No saved game found."; returns [None] *)
| Loaded (p : Player.t)      (* "Game loaded."; returns [p] *)
| LoadRaised (e : LoadError)
| LoadedUntyped.             (* "Game loaded."; returns a player one of
                                whose fields holds a value of a type the
                                game never stores there, which [Player.t]
                                does not have *)

(** [entries.get(key)] *)
Fixpoint dict_get (entries : list (string * Json)) (key : string) : option Json :=
  match entries with
  | [] => None
  | (k, v) :: rest => if String.eqb k key then Some v else dict_get rest key
  end.

(** [data[key]] on a [dict] *)
Definition item (data : list (string * Json)) (key : string) : LoadError + Json :=
  match dict_get data key with
  | Some v => inr v
  | None => inl (KeyError key)
  end.

(** A list or a [dict] cannot be the key of a [dict] lookup. *)
Definition hashable (j : Json) : bool :=
  match j with
  | JArr _ | JObj _ => false
  | _ => true
  end.

(** [CLASS_KEY_MAP.get(key) or next((c for c in CLASSES if c['key'] == key),
    CLASSES[0])] for a decoded key: the lookup hashes the key first, and a
    key that is no string equals no key of the table. *)
Definition class_of_json (key : Json) : LoadError + ClassDef :=
  if hashable key then
    match key with
    | JStr s => inr (class_of_saved s)
    | _ => inr (nth 0 CLASSES (CLASS_KEY_MAP night_surgeon))
    end
  else inl TypeError.

(** The values a [for] loop over a decoded value visits: the elements of a
    list, the keys of a [dict], the characters of a string; nothing else can
    be iterated. *)
Definition iterate (j : Json) : option (list Json) :=
  match j with
  | JArr items => Some items
  | JObj entries => Some (map (fun kv => JStr (fst kv)) entries)
  | JStr s => Some (map (fun c => JStr (String c EmptyString)) (list_ascii_of_string s))
  | _ => None
  end.

(** The loop [for itname in ...: if itname in ITEMS:
    p.inventory.add(ITEMS[itname])] over decoded values: [itname in ITEMS]
    hashes [itname]. *)
Fixpoint load_items (names : list Json) (items : Inventory.t) : LoadError + Inventory.t :=
  match names with
  | [] => inr items
  | itname :: rest =>
      if hashable itname then
        match itname with
        | JStr s =>
            match ITEMS s with
            | Some it => load_items rest (Inventory.add it items)
            | None => load_items rest items
            end
        | _ => load_items rest items
        end
      else inl TypeError
  end.

(** The decoded values the fields of a [Player.t] can hold. *)
Definition as_str (j : Json) : option string :=
  match j with JStr s => Some s | _ => None end.

Definition as_int (j : Json) : option Z :=
  match j with JInt z => Some z | _ => None end.

Definition flag_of_json (j : Json) : option PyVal :=
  match j with
  | JBool b => Some (VBool b)
  | JInt z => Some (VInt z)
  | _ => None
  end.

Fixpoint flags_of_entries (entries : list (string * Json)) : option (gmap string PyVal) :=
  match entries with
  | [] => Some ∅
  | (k, v) :: rest =>
      match flag_of_json v, flags_of_entries rest with
      | Some v, Some m => Some (<[k := v]> m)
      | _, _ => None
      end
  end.

Definition flags_of_json (j : Json) : option (gmap string PyVal) :=
  match j with
  | JObj entries => flags_of_entries entries
  | _ => None
  end.

Notation "'try' x ':=' m 'in' k" :=
  (match m with inl e => LoadRaised e | inr x => k end)
  (at level 10, x name, m at level 100, k at level 200, only parsing).

Module OnDisk.
(** [load_game] on what is at [SAVE_PATH], in the order of the source: the
    subscripts [data['class']], [data['name']], ..., [data['xp']] raise
    [KeyError] on a missing key, [data.get('inventory', [])] and
    [data.get('flags', {})] do not. *)
Definition load_game (file : SaveFile) : LoadResult :=
  match file with
  | NoFile => NoSave
  | NotJson => LoadRaised ValueError
  | Parsed (JObj data) =>
      try key := item data "class" in
      try cls := class_of_json key in
      try name := item data "name" in
      try health := item data "health" in
      try max_health := item data "max_health" in
      try sanity := item data "sanity" in
      try strength := item data "strength" in
      try agility := item data "agility" in
      try magic := item data "magic" in
      try level := item data "level" in
      try xp := item data "xp" in
      match iterate (default (JArr []) (dict_get data "inventory")) with
      | None => LoadRaised TypeError
      | Some names =>
          try items := load_items names [] in
          let flags := default (JObj []) (dict_get data "flags") in
          let typed :=
            name ← as_str name;
            health ← as_int health;
            max_health ← as_int max_health;
            sanity ← as_int sanity;
            strength ← as_int strength;
            agility ← as_int agility;
            magic ← as_int magic;
            level ← as_int level;
            xp ← as_int xp;
            flags ← flags_of_json flags;
            let p := Player.init name cls in
            Some (Player.mk (Player.name p) (Player.cls p) (Player.class_name p)
                    max_health health sanity strength agility magic level xp
                    items (Player.equipped p) (Player.alive p) flags
                    (Player.class_resource p)) in
          match typed with
          | Some p => Loaded p
          | None => LoadedUntyped
          end
      end
  | Parsed _ => LoadRaised TypeError   (* [data['class']] on what is no [dict] *)
  end.
End OnDisk.




(** The document [json.load] gives back for the dictionary [save_game]
    dumped. *)
Definition json_of_val (v : PyVal) : Json :=
  match v with
  | VBool b => JBool b
  | VInt z => JInt z
  end.

Definition json_of_save (d : SaveData) : Json :=
  JObj [("name", JStr (sv_name d)); ("class", JStr (sv_class d));
        ("health", JInt (sv_health d)); ("max_health", JInt (sv_max_health d));
        ("sanity", JInt (sv_sanity d)); ("strength", JInt (sv_strength d));
        ("agility", JInt (sv_agility d)); ("magic", JInt (sv_magic d));
        ("level", JInt (sv_level d)); ("xp", JInt (sv_xp d));
        ("inventory", JArr (map JStr (sv_inventory d)));
        ("flags", JObj (map (fun kv => (fst kv, json_of_val (snd kv)))
                          (map_to_list (sv_flags d))))].

(** ** The scenes between fights *)

(** One constructor per message the scenes print. *)
Inductive SceneLine :=
| LnPromptText (text : string)
| LnInterrupted
| LnMerchantIntro
| LnMerchantOffers
| LnOfferElixir
| LnOfferMist
| LnOfferShard
| LnTypeLeave
| LnBought (item_name : string)
| LnNotValid
| LnThatsNotValid
| LnChildIntro
| LnChildOptions
| LnHelpChild
| LnIgnoreChild
| LnExploitChild
| LnFinalChoice
| LnResell
| LnNoLedger
| LnBurn
| LnBind
| LnFailedShift
| LnHelpingEnding
| LnExploitEnding
| LnNeutralEnding.

(** A scene returns a value, leaving the player, the unread lines and the
    text printed; or the input ends and [prompt] calls [sys.exit(0)]. *)
Inductive SceneResult (A : Type) :=
| Returned (a : A) (p : Player.t) (rest : list string) (out : list SceneLine)
| Exited (code : Z) (p : Player.t) (out : list SceneLine).
Arguments Returned {A} a p rest out.
Arguments Exited {A} code p out.

(** The [while True] loop of [merchant_scene]; every pass prints the offers
    and reads one line with [prompt(options=None, ...)], which never returns
    [None]. *)
Fixpoint merchant_loop (lines : list string) (p : Player.t)
    (out : list SceneLine) : SceneResult string :=
  let out := out ++ [LnMerchantOffers; LnOfferElixir; LnOfferMist; LnOfferShard;
                     LnTypeLeave;
                     LnPromptText "Choose an item to 'buy' by typing its number, or 'leave'."] in
  match lines with
  | [] => Exited 0 p (out ++ [LnInterrupted])
  | line :: rest =>
      let choice := strip line in
      if String.eqb (lower choice) "leave" then Returned "leave" p rest out
      else if String.eqb choice "1" then
        merchant_loop rest
          (Player.set_inventory (Inventory.add Dream_Elixir (Player.inventory p)) p)
          (out ++ [LnBought "Dream Elixir"])
      else if String.eqb choice "2" then
        merchant_loop rest
          (Player.set_inventory (Inventory.add Calm_Mist (Player.inventory p)) p)
          (out ++ [LnBought "Calm Mist"])
      else if String.eqb choice "3" then
        merchant_loop rest
          (Player.set_inventory (Inventory.add Fear_Shard (Player.inventory p)) p)
          (out ++ [LnBought "Fear Shard"])
      else merchant_loop rest p (out ++ [LnNotValid])
  end.

(** [merchant_scene] *)
Definition merchant_scene (lines : list string) (p : Player.t)
    (out : list SceneLine) : SceneResult string :=
  merchant_loop lines p (out ++ [LnMerchantIntro]).

(** The [while True] loop of [choice_branch]. *)
Fixpoint choice_loop (lines : list string) (p : Player.t)
    (out : list SceneLine) : SceneResult unit :=
  let out := out ++ [LnPromptText "Choose 1, 2 or 3:"] in
  match lines with
  | [] => Exited 0 p (out ++ [LnInterrupted])
  | line :: rest =>
      let ch := strip line in
      if String.eqb ch "1" then
        let p1 := Player.set_inventory (Inventory.add Hope_Seed (Player.inventory p)) p in
        Returned tt
          (Player.set_flags (<["helped_child" := VBool true]> (Player.flags p1)) p1)
          rest (out ++ [LnHelpChild])
      else if String.eqb ch "2" then
        Returned tt
          (Player.set_flags (<["ignored_child" := VBool true]> (Player.flags p)) p)
          rest (out ++ [LnIgnoreChild])
      else if String.eqb ch "3" then
        let p1 := Player.set_inventory (Inventory.add Fear_Shard (Player.inventory p)) p in
        Returned tt
          (Player.set_flags (<["exploited_child" := VBool true]> (Player.flags p1)) p1)
          rest (out ++ [LnExploitChild])
      else choice_loop rest p (out ++ [LnThatsNotValid])
  end.

(** [choice_branch(player, area)]; the area is not used. *)
Definition choice_branch (lines : list string) (p : Player.t)
    (out : list SceneLine) : SceneResult unit :=
  choice_loop lines p (out ++ [LnChildIntro; LnChildOptions]).

(** The endings [compute_ending] returns. *)
Inductive Ending :=
| death_ending | merchant_resell | burned_contract | bound_contract
| helping_ending | exploit_ending | neutral_ending.

(** [any(it.name == 'Broker Ledger' for it in player.inventory.items)] *)
Definition has_ledger (items : Inventory.t) : bool :=
  existsb (fun it => String.eqb (Item.name it) "Broker Ledger") items.

(** The [while True] loop of [ending_shopkeeper]. *)
Fixpoint ending_loop (lines : list string) (p : Player.t)
    (out : list SceneLine) : SceneResult Ending :=
  let out := out ++ [LnPromptText "Type 'resell', 'burn', or 'bind':"] in
  match lines with
  | [] => Exited 0 p (out ++ [LnInterrupted])
  | line :: rest =>
      let lc := lower (strip line) in
      if String.eqb lc "resell" then
        if has_ledger (Player.inventory p)
        then Returned merchant_resell p rest (out ++ [LnResell])
        else ending_loop rest p (out ++ [LnNoLedger])
      else if String.eqb lc "burn" then
        Returned burned_contract p rest (out ++ [LnBurn])
      else if String.eqb lc "bind" then
        Returned bound_contract p rest (out ++ [LnBind])
      else ending_loop rest p (out ++ [LnNotValid])
  end.

(** [ending_shopkeeper] *)
Definition ending_shopkeeper (lines : list string) (p : Player.t)
    (out : list SceneLine) : SceneResult Ending :=
  ending_loop lines p (out ++ [LnFinalChoice]).

(** Python's truth value of [player.flags.get(key)]. *)
Definition flag_set (p : Player.t) (key : string) : bool :=
  match Player.flags p !! key with
  | Some (VBool b) => b
  | Some (VInt z) => negb (z =? 0)
  | None => false
  end.

(** [compute_ending(player, end_state)] *)
Definition compute_ending (end_state : string) (lines : list string)
    (p : Player.t) (out : list SceneLine) : SceneResult Ending :=
  if String.eqb end_state "dead" then
    Returned death_ending p lines (out ++ [LnFailedShift])
  else if String.eqb end_state "boss_defeated" || flag_set p "defeated_contract" then
    ending_shopkeeper lines p out
  else if flag_set p "helped_child" then
    Returned helping_ending p lines (out ++ [LnHelpingEnding])
  else if flag_set p "exploited_child" then
    Returned exploit_ending p lines (out ++ [LnExploitEnding])
  else Returned neutral_ending p lines (out ++ [LnNeutralEnding]).

(** ** Vocabulary of the further statements *)

(** A property of the player that every mutation a fight can make keeps:
    the two modifiers, any change of agility, the defend flag coming and
    going, an item used up or a drop collected, the extraction mark, and the
    level-ups of [gain_xp]. *)
Record combat_stable (P : Player.t -> Prop) : Prop := {
  stable_health : forall p amt, P p -> P (Player.modify_health amt p);
  stable_sanity : forall p amt, P p -> P (Player.modify_sanity amt p);
  stable_agility : forall p a, P p -> P (Player.set_agility a p);
  stable_defend_set : forall p v,
    P p -> P (Player.set_flags (<["defend_tmp" := v]> (Player.flags p)) p);
  stable_defend_pop : forall p,
    P p -> P (Player.set_flags (delete "defend_tmp" (Player.flags p)) p);
  stable_item_used : forall p name it rest,
    Inventory.remove name (Player.inventory p) = Some (it, rest) ->
    P p -> P (Player.set_inventory rest p);
  stable_item_gained : forall p it,
    it = Fear_Shard \/ it = Hope_Seed ->
    P p -> P (Player.set_inventory (Inventory.add it (Player.inventory p)) p);
  stable_extracted : forall p,
    P p ->
    P (Player.set_class_resource (<["extracted" := true]> (Player.class_resource p)) p);
  stable_level_up : forall p, P p -> P (Player.level_up p);
  stable_xp : forall p x, P p -> P (Player.set_xp x p)
}.


(** The lines a scene reads before the first one that satisfies [stop], and
    what follows that line; [None] when no line does. *)
Fixpoint read_until (stop : string -> bool) (lines : list string)
  : option (list string * list string) :=
  match lines with
  | [] => None
  | line :: rest =>
      if stop line then Some ([], rest)
      else match read_until stop rest with
           | Some (before, after) => Some (line :: before, after)
           | None => None
           end
  end.

(** What one line typed at the merchant buys. *)
Definition bought (line : string) : list Item.t :=
  let choice := strip line in
  if String.eqb choice "1" then [Dream_Elixir]
  else if String.eqb choice "2" then [Calm_Mist]
  else if String.eqb choice "3" then [Fear_Shard]
  else [].

Definition says_leave (line : string) : bool :=
  String.eqb (lower (strip line)) "leave".


(** [n] passes through the body of the loop of [gain_xp], and the condition
    on which the loop stops. *)
Definition leveled (n : nat) (q : Player.t) : Player.t := Nat.iter n Player.level_up q.

Definition stays (q : Player.t) : Prop := Player.xp q < 100 * Player.level q.

(** Every item is the catalog's item of its name. *)
Definition from_catalog (items : list Item.t) : Prop :=
  Forall (fun it => ITEMS (Item.name it) = Some it) items.

(** [Combat.run] stops, by returning or by raising, in a state that
    satisfies [Q]. *)
Definition ends_with (rand : nat -> Z) (s : State) (Q : State -> Prop) : Prop :=
  match final_state (run rand s) with
  | Some s' => Q s'
  | None => False
  end.

(** The inventory [run_game] hands a new Night Surgeon. *)
Definition starter_inventory : Inventory.t := [Dream_Elixir; Calm_Mist; Broker_Ledger].

(** A state of the fight, for the examples: the fight as it started, with
    another player, enemy or set of rewrite effects. *)
Definition with_player (p : Player.t) (s : State) : State :=
  mkState (Combat.mk p (Combat.enemy (self s)) (Combat.turn_count (self s))
             (Combat.rewrite_effects (self s)))
    (stdin s) (draws s) (stdout s).

Definition with_rewrite_effects (r : gmap string bool) (s : State) : State :=
  mkState (Combat.mk (Combat.player (self s)) (Combat.enemy (self s))
             (Combat.turn_count (self s)) r)
    (stdin s) (draws s) (stdout s).

(** * Properties *)

(** ** Arithmetic of the rolls *)

(** On the stats the game produces, [int(x / 2)] is the floor of [x / 2]. *)
Lemma int_half_floor (x : Z) : 0 <= x -> int_half x = x / 2.
Proof. intros H. unfold int_half. apply Z.quot_div_nonneg; lia. Qed.

Lemma geb_true_iff a b : (a >=? b) = true <-> b <= a.
Proof. rewrite Z.geb_leb. apply Z.leb_le. Qed.

Lemma geb_false_iff a b : (a >=? b) = false <-> a < b.
Proof. rewrite Z.geb_leb. apply Z.leb_gt. Qed.

Lemma gtb_true_iff a b : (a >? b) = true <-> b < a.
Proof. rewrite Z.gtb_ltb. apply Z.ltb_lt. Qed.

Lemma gtb_false_iff a b : (a >? b) = false <-> a <= b.
Proof. rewrite Z.gtb_ltb. apply Z.ltb_ge. Qed.

(** ** Health and sanity *)

(** C1.  For every signed amount, [modify_health] leaves the health within
    [0 .. max_health] (for a player whose [max_health] is not negative);
    [modify_sanity] adds the amount as it is, with no upper clamp, and a
    resulting sanity of -50 or less clears [alive] whatever the health is,
    which [modify_sanity] does not touch. *)
Theorem modify_health_clamps_modify_sanity_kills (p : Player.t) (amt : Z) :
  0 <= Player.max_health p ->
  0 <= Player.health (Player.modify_health amt p)
       <= Player.max_health (Player.modify_health amt p)
  /\ Player.sanity (Player.modify_sanity amt p) = Player.sanity p + amt
  /\ Player.health (Player.modify_sanity amt p) = Player.health p
  /\ (Player.sanity p + amt <= -50 ->
      Player.alive (Player.modify_sanity amt p) = false).
Proof.
  intros Hmax. unfold Player.modify_health, Player.modify_sanity. simpl.
  repeat split.
  - case_match; simpl; lia.
  - case_match; simpl; lia.
  - case_match; reflexivity.
  - case_match; reflexivity.
  - case_match; simpl; [reflexivity | lia].
Qed.

(** A healthy Night Surgeon (90 of 90 HP, sanity 80) who loses 130 sanity
    is dead with all 90 HP. *)
Lemma modify_health_clamps_modify_sanity_kills_witness :
  let p := Player.init "Tester" (CLASS_KEY_MAP night_surgeon) in
  0 <= Player.health (Player.modify_health 1000 p)
       <= Player.max_health (Player.modify_health 1000 p)
  /\ Player.sanity (Player.modify_sanity (-130) p) = Player.sanity p + -130
  /\ Player.health (Player.modify_sanity (-130) p) = Player.health p
  /\ Player.alive (Player.modify_sanity (-130) p) = false.
Proof.
  intros p.
  destruct (modify_health_clamps_modify_sanity_kills p 1000) as (H1 & _);
    [subst p; simpl; lia|].
  destruct (modify_health_clamps_modify_sanity_kills p (-130)) as (_ & Hs & Hh & Ha);
    [subst p; simpl; lia|].
  split; [exact H1|]. split; [exact Hs|]. split; [exact Hh|].
  apply Ha. subst p. simpl. lia.
Defined.

(** ** The alive flag *)

Lemma mutate_latch p m :
  (Player.alive p = true -> 0 < Player.health p /\ -50 < Player.sanity p) ->
  (Player.alive (mutate p m) = true ->
     0 < Player.health (mutate p m) /\ -50 < Player.sanity (mutate p m))
  /\ (Player.alive p = false -> Player.alive (mutate p m) = false).
Proof.
  intros H. destruct m as [amt|amt]; simpl;
    unfold Player.modify_health, Player.modify_sanity; simpl.
  - destruct (Z.eqb_spec (Z.max 0 (Z.min (Player.max_health p) (Player.health p + amt))) 0);
      simpl; split; try congruence.
    intros Ha. specialize (H Ha). lia.
  - destruct (Z.leb_spec (Player.sanity p + amt) (-50)); simpl; split; try congruence.
    intros Ha. specialize (H Ha). lia.
Qed.

Lemma take_damage_latch e d :
  (Enemy.alive e = true -> 0 < Enemy.hp e) ->
  (Enemy.alive (Enemy.take_damage d e) = true -> 0 < Enemy.hp (Enemy.take_damage d e))
  /\ (Enemy.alive e = false -> Enemy.alive (Enemy.take_damage d e) = false).
Proof.
  intros H. unfold Enemy.take_damage. simpl.
  destruct (Z.eqb_spec (Z.max 0 (Enemy.hp e - d)) 0); simpl; split; try congruence.
  intros Ha. lia.
Qed.

Lemma mutations_latch ms : forall p,
  (Player.alive p = true -> 0 < Player.health p /\ -50 < Player.sanity p) ->
  (Player.alive (mutations ms p) = true ->
     0 < Player.health (mutations ms p) /\ -50 < Player.sanity (mutations ms p))
  /\ (Player.alive p = false -> Player.alive (mutations ms p) = false).
Proof.
  induction ms as [|m ms IH]; intros p H; simpl.
  - split; auto.
  - destruct (mutate_latch p m H) as [H1 H2].
    destruct (IH (mutate p m) H1) as [H3 H4]. split; auto.
Qed.

Lemma damages_latch ds : forall e,
  (Enemy.alive e = true -> 0 < Enemy.hp e) ->
  (Enemy.alive (damages ds e) = true -> 0 < Enemy.hp (damages ds e))
  /\ (Enemy.alive e = false -> Enemy.alive (damages ds e) = false).
Proof.
  induction ds as [|d ds IH]; intros e H; simpl.
  - split; auto.
  - destruct (take_damage_latch e d H) as [H1 H2].
    destruct (IH (Enemy.take_damage d e) H1) as [H3 H4]. split; auto.
Qed.

Lemma modify_health_alive p amt :
  Player.alive (Player.modify_health amt p)
  = Player.alive p && (0 <? Player.health (Player.modify_health amt p)).
Proof.
  unfold Player.modify_health. simpl.
  destruct (Z.eqb_spec (Z.max 0 (Z.min (Player.max_health p) (Player.health p + amt))) 0)
    as [E|E]; simpl.
  - rewrite E. simpl. by rewrite andb_false_r.
  - replace (0 <? _) with true; [by rewrite andb_true_r|].
    symmetry. apply Z.ltb_lt. lia.
Qed.

Lemma modify_sanity_alive p amt :
  Player.alive (Player.modify_sanity amt p)
  = Player.alive p && (-50 <? Player.sanity (Player.modify_sanity amt p)).
Proof.
  unfold Player.modify_sanity. simpl.
  destruct (Z.leb_spec (Player.sanity p + amt) (-50)); simpl.
  - replace (-50 <? _) with false; [by rewrite andb_false_r|].
    symmetry. apply Z.ltb_ge. lia.
  - replace (-50 <? _) with true; [by rewrite andb_true_r|].
    symmetry. apply Z.ltb_lt. lia.
Qed.

Lemma take_damage_alive e d :
  Enemy.alive (Enemy.take_damage d e)
  = Enemy.alive e && (0 <? Enemy.hp (Enemy.take_damage d e)).
Proof.
  unfold Enemy.take_damage. simpl.
  destruct (Z.eqb_spec (Z.max 0 (Enemy.hp e - d)) 0) as [E|E]; simpl.
  - rewrite E. simpl. by rewrite andb_false_r.
  - replace (0 <? _) with true; [by rewrite andb_true_r|].
    symmetry. apply Z.ltb_lt. lia.
Qed.

(** One mutator call on a player whose set flag implies the derived
    condition: the flag stays set exactly when the derived condition holds
    after the call. *)
Lemma mutate_alive p m :
  (Player.alive p = true -> 0 < Player.health p /\ -50 < Player.sanity p) ->
  Player.alive (mutate p m) = Player.alive p && player_derived_alive (mutate p m).
Proof.
  intros H. unfold player_derived_alive. destruct m as [amt|amt]; simpl.
  - rewrite modify_health_alive.
    destruct (Player.alive p) eqn:Ha; [|reflexivity]. simpl.
    destruct (H eq_refl) as [_ Hs].
    replace (-50 <? Player.sanity (Player.modify_health amt p)) with true;
      [by rewrite andb_true_r|].
    symmetry. apply Z.ltb_lt. unfold Player.modify_health. simpl.
    case_match; simpl; lia.
  - rewrite modify_sanity_alive.
    destruct (Player.alive p) eqn:Ha; [|reflexivity]. simpl.
    destruct (H eq_refl) as [Hh _].
    replace (0 <? Player.health (Player.modify_sanity amt p)) with true;
      [reflexivity|].
    symmetry. apply Z.ltb_lt. unfold Player.modify_sanity. simpl.
    case_match; simpl; lia.
Qed.

Lemma mutations_alive ms : forall p,
  (Player.alive p = true -> 0 < Player.health p /\ -50 < Player.sanity p) ->
  Player.alive (mutations ms p)
  = Player.alive p && forallb player_derived_alive (mutation_states ms p).
Proof.
  induction ms as [|m ms IH]; intros p H.
  - simpl. by rewrite andb_true_r.
  - destruct (mutate_latch p m H) as [H1 _].
    change (mutations (m :: ms) p) with (mutations ms (mutate p m)).
    rewrite (IH _ H1), (mutate_alive p m H). simpl.
    destruct (Player.alive p), (player_derived_alive (mutate p m)); reflexivity.
Qed.

Lemma damages_alive ds : forall e,
  Enemy.alive (damages ds e)
  = Enemy.alive e && forallb enemy_derived_alive (damage_states ds e).
Proof.
  induction ds as [|d ds IH]; intros e.
  - simpl. by rewrite andb_true_r.
  - change (damages (d :: ds) e) with (damages ds (Enemy.take_damage d e)).
    rewrite IH, take_damage_alive. simpl.
    unfold enemy_derived_alive. by rewrite andb_assoc.
Qed.

(** The last of the states passed through is the result. *)
Lemma mutations_last_state ms : forall m p d,
  mutations (m :: ms) p = List.last (mutation_states (m :: ms) p) d.
Proof.
  induction ms as [|m' ms IH]; intros m p d; [reflexivity|].
  change (mutations (m :: m' :: ms) p) with (mutations (m' :: ms) (mutate p m)).
  rewrite (IH m' (mutate p m) d). reflexivity.
Qed.

Lemma damages_last_state ds : forall d e d0,
  damages (d :: ds) e = List.last (damage_states (d :: ds) e) d0.
Proof.
  induction ds as [|d' ds IH]; intros d e d0; [reflexivity|].
  change (damages (d :: d' :: ds) e) with (damages (d' :: ds) (Enemy.take_damage d e)).
  rewrite (IH d' (Enemy.take_damage d e) d0). reflexivity.
Qed.

(** C8, as the code has it.  The alive flag is a latch, not a value derived
    from the current health and sanity: each mutator leaves the flag set
    exactly when it was set before the call and the value it wrote is above
    the threshold (health above 0, sanity above -50, hp above 0).  So after
    any sequence of health and sanity mutations of a player (of hits on an
    enemy) that started with a set flag implying health above 0 (and sanity
    above -50), the flag is set exactly when it was set at the start and the
    derived condition held after every call so far, not only after the last
    one.  In particular a set flag implies the derived condition, a cleared
    flag stays cleared, and healing a player whose flag is cleared leaves it
    cleared, also when the health comes back above 0. *)
Theorem alive_is_a_latch (ms : list Mutation) (ds : list Z)
    (p : Player.t) (e : Enemy.t) :
  (Player.alive p = true -> 0 < Player.health p /\ -50 < Player.sanity p) ->
  (Enemy.alive e = true -> 0 < Enemy.hp e) ->
  let p' := mutations ms p in
  let e' := damages ds e in
  Player.alive p'
    = Player.alive p && forallb player_derived_alive (mutation_states ms p)
  /\ Enemy.alive e'
    = Enemy.alive e && forallb enemy_derived_alive (damage_states ds e)
  /\ (forall amt,
        Player.alive (Player.modify_health amt p')
        = Player.alive p' && (0 <? Player.health (Player.modify_health amt p')))
  /\ (forall amt,
        Player.alive (Player.modify_sanity amt p')
        = Player.alive p' && (-50 <? Player.sanity (Player.modify_sanity amt p')))
  /\ (forall d,
        Enemy.alive (Enemy.take_damage d e')
        = Enemy.alive e' && (0 <? Enemy.hp (Enemy.take_damage d e')))
  /\ (Player.alive p' = true -> player_derived_alive p' = true)
  /\ (Player.alive p = false -> Player.alive p' = false)
  /\ (Enemy.alive e' = true -> enemy_derived_alive e' = true)
  /\ (Enemy.alive e = false -> Enemy.alive e' = false)
  /\ (forall amt, Player.alive p' = false ->
        Player.alive (Player.modify_health amt p') = false).
Proof.
  intros Hp He p' e'. subst p' e'.
  destruct (mutations_latch ms p Hp) as [H1 H2].
  destruct (damages_latch ds e He) as [H3 H4].
  split; [exact (mutations_alive ms p Hp)|].
  split; [exact (damages_alive ds e)|].
  split; [intros amt; apply modify_health_alive|].
  split; [intros amt; apply modify_sanity_alive|].
  split; [intros d; apply take_damage_alive|].
  unfold player_derived_alive, enemy_derived_alive.
  repeat split; auto.
  - intros Ha. destruct (H1 Ha) as [Hh Hs].
    apply andb_true_intro. split; apply Z.ltb_lt; assumption.
  - intros Ha. apply Z.ltb_lt. auto.
  - intros amt Ha. rewrite modify_health_alive, Ha. reflexivity.
Qed.

(** A Night Surgeon taken to 0 HP and healed by 30, and a Token Thief hit
    for 35. *)
Lemma alive_is_a_latch_witness :
  let p := Player.init "Tester" (CLASS_KEY_MAP night_surgeon) in
  let p' := mutations [Health (-90); Health 30] p in
  let e' := damages [35] Token_Thief in
  Player.alive p'
    = Player.alive p
      && forallb player_derived_alive (mutation_states [Health (-90); Health 30] p)
  /\ Enemy.alive e'
    = Enemy.alive Token_Thief
      && forallb enemy_derived_alive (damage_states [35] Token_Thief)
  /\ (forall amt,
        Player.alive (Player.modify_health amt p')
        = Player.alive p' && (0 <? Player.health (Player.modify_health amt p')))
  /\ (forall amt,
        Player.alive (Player.modify_sanity amt p')
        = Player.alive p' && (-50 <? Player.sanity (Player.modify_sanity amt p')))
  /\ (forall d,
        Enemy.alive (Enemy.take_damage d e')
        = Enemy.alive e' && (0 <? Enemy.hp (Enemy.take_damage d e')))
  /\ (Player.alive p' = true -> player_derived_alive p' = true)
  /\ (Player.alive p = false -> Player.alive p' = false)
  /\ (Enemy.alive e' = true -> enemy_derived_alive e' = true)
  /\ (Enemy.alive Token_Thief = false -> Enemy.alive e' = false)
  /\ (forall amt, Player.alive p' = false ->
        Player.alive (Player.modify_health amt p') = false).
Proof.
  apply (alive_is_a_latch [Health (-90); Health 30] [35]
           (Player.init "Tester" (CLASS_KEY_MAP night_surgeon)) Token_Thief).
  - intros _. simpl. lia.
  - intros _. simpl. lia.
Defined.

(** C8 as stated fails: a Night Surgeon taken to 0 HP by [modify_health(-90)]
    and healed by [modify_health(30)] has 30 HP and sanity 80, so the derived
    condition holds, and is not alive. *)
Lemma alive_not_derived_counterexample :
  let p := Player.init "Tester" (CLASS_KEY_MAP night_surgeon) in
  let p' := mutations [Health (-90); Health 30] p in
  Player.health p' = 30 /\ Player.sanity p' = 80
  /\ player_derived_alive p' = true /\ Player.alive p' = false.
Proof. vm_compute. repeat split. Qed.

(** ** Experience *)

Lemma gain_xp_loop_inv fuel : forall p p' out,
  Player.gain_xp_loop fuel p = (p', out) ->
  Player.level p <= Player.level p'
  /\ Player.max_health p' = Player.max_health p + 10 * (Player.level p' - Player.level p)
  /\ Player.strength p' = Player.strength p + (Player.level p' - Player.level p)
  /\ Player.agility p' = Player.agility p + (Player.level p' - Player.level p)
  /\ Player.magic p' = Player.magic p + (Player.level p' - Player.level p)
  /\ Player.xp p' = Player.xp p
       - 50 * (Player.level p' - Player.level p) * (Player.level p' + Player.level p - 1)
  /\ (Player.level p < Player.level p' -> 0 <= Player.xp p')
  /\ Player.flags p' = Player.flags p
  /\ snares out = 0%nat.
Proof.
  induction fuel as [|fuel IH]; intros p p' out H; simpl in H.
  - inversion H; subst. simpl. repeat split; lia.
  - destruct (Player.xp p >=? 100 * Player.level p) eqn:E.
    + destruct (Player.gain_xp_loop fuel (Player.level_up p)) as [p2 o2] eqn:E2.
      inversion H; subst. apply IH in E2. simpl in E2.
      destruct E2 as (H1 & H2 & H3 & H4 & H5 & H6 & H7 & H8 & H9).
      repeat split; try lia; try assumption.
      intros _. destruct (Z.eq_dec (Player.level p') (Player.level p + 1)) as [e|]; [|lia].
      rewrite H6, e. apply geb_true_iff in E. lia.
    + inversion H; subst. repeat split; simpl; lia.
Qed.

(** Every pass of the loop lowers the bound [gain_xp_passes]. *)
Lemma gain_xp_passes_level_up p :
  Player.xp p >= 100 * Player.level p ->
  (Player.gain_xp_passes (Player.level_up p) < Player.gain_xp_passes p)%nat.
Proof.
  intros H. unfold Player.gain_xp_passes. simpl.
  set (l := Player.level p) in *. set (x := Player.xp p) in *.
  destruct (Z.leb_spec l 0) as [Hl|Hl].
  - assert (Hb : x - 100 * l + (if l + 1 <=? 0 then 50 * (l + 1) * (l + 1 - 1) else 0)
                 = x + 50 * l * (l - 1)).
    { destruct (Z.leb_spec (l + 1) 0); [ring|]. assert (l = 0) by lia. subst l. lia. }
    rewrite Hb. lia.
  - destruct (Z.leb_spec (l + 1) 0); [lia|].
    rewrite !Z.add_0_r.
    assert (Hq : (x - 100 * l) / 100 = x / 100 - l).
    { replace (x - 100 * l) with (x + (- l) * 100) by ring.
      rewrite Z.div_add by lia. lia. }
    rewrite Hq.
    assert (l <= x / 100) by (apply Z.div_le_lower_bound; lia).
    lia.
Qed.

(** With [gain_xp_passes] passes allowed, the loop stops because its
    condition fails, as the [while] does. *)
Lemma gain_xp_loop_exits fuel : forall p p' out,
  (Player.gain_xp_passes p <= fuel)%nat ->
  Player.gain_xp_loop fuel p = (p', out) ->
  Player.xp p' < 100 * Player.level p'.
Proof.
  induction fuel as [|fuel IH]; intros p p' out Hf H; simpl in H.
  - inversion H; subst. unfold Player.gain_xp_passes in Hf.
    destruct (Z.leb_spec (Player.level p') 0) as [Hl|Hl]; [lia|].
    rewrite Z.add_0_r in Hf.
    assert (Player.xp p' / 100 <= 0) by lia.
    destruct (Z.lt_ge_cases (Player.xp p') 100); [lia|].
    assert (1 <= Player.xp p' / 100) by (apply Z.div_le_lower_bound; lia). lia.
  - destruct (Player.xp p >=? 100 * Player.level p) eqn:E.
    + destruct (Player.gain_xp_loop fuel (Player.level_up p)) as [p2 o2] eqn:E2.
      inversion H; subst. eapply IH; [|exact E2].
      apply geb_true_iff in E.
      assert (Hge : Player.xp p >= 100 * Player.level p) by lia.
      pose proof (gain_xp_passes_level_up p Hge). lia.
    + inversion H; subst. apply geb_false_iff in E. exact E.
Qed.

(** C3, as the code has it.  [gain_xp] never lowers the level; it levels up
    for as long as [xp >= 100 * level], so that on return [xp] is below
    [100 * level] and, when a level was gained, not negative; every level
    gained adds 10 to [max_health] and 1 to strength, agility and magic, and
    takes its threshold from [xp].  Granting 250 XP to a new level-1 player
    crosses one threshold only (150 left is below the 200 of level 2): level
    2, [max_health] + 10, each stat + 1, 150 XP left, and no clamping. *)
Theorem gain_xp_cascades :
  (forall (p : Player.t) (amount : Z),
     let p' := fst (Player.gain_xp amount p) in
     let gained := Player.level p' - Player.level p in
     0 <= gained
     /\ Player.max_health p' = Player.max_health p + 10 * gained
     /\ Player.strength p' = Player.strength p + gained
     /\ Player.agility p' = Player.agility p + gained
     /\ Player.magic p' = Player.magic p + gained
     /\ Player.xp p' = Player.xp p + amount
          - 50 * gained * (Player.level p' + Player.level p - 1)
     /\ Player.xp p' < 100 * Player.level p'
     /\ (gained = 0 \/ 0 <= Player.xp p'))
  /\ (forall (name : string) (c : ClassDef),
        let p' := fst (Player.gain_xp 250 (Player.init name c)) in
        Player.level p' = 2 /\ Player.xp p' = 150
        /\ Player.max_health p' = cd_health c + 10
        /\ Player.strength p' = cd_strength c + 1
        /\ Player.agility p' = cd_agility c + 1
        /\ Player.magic p' = cd_magic c + 1).
Proof.
  split.
  - intros p amount p' gained. subst p' gained. unfold Player.gain_xp.
    set (p1 := Player.set_xp _ p).
    destruct (Player.gain_xp_loop (Player.gain_xp_passes p1) p1) as [p' out] eqn:E.
    pose proof (gain_xp_loop_inv _ _ _ _ E) as (H1 & H2 & H3 & H4 & H5 & H6 & H7 & _).
    pose proof (gain_xp_loop_exits _ _ _ _ (Nat.le_refl _) E) as Hx.
    subst p1. simpl in *. repeat split; lia.
  - intros name c. vm_compute. repeat split.
Qed.

(** C3 as stated fails on its own example: 250 XP at level 1 give level 2
    with 150 XP left, not level 3 with 0, and the bonuses of one level. *)
Lemma gain_xp_250_counterexample :
  let p := Player.init "Tester" (CLASS_KEY_MAP night_surgeon) in
  let p' := fst (Player.gain_xp 250 p) in
  Player.level p' = 2 /\ Player.xp p' = 150
  /\ Player.max_health p' = Player.max_health p + 10
  /\ Player.strength p' = Player.strength p + 1.
Proof. vm_compute. repeat split. Qed.

(** ** What a fight does to the agility *)

Lemma snares_app out out' : snares (out ++ out') = (snares out + snares out')%nat.
Proof. unfold snares. by rewrite filter_app, length_app. Qed.

Lemma snares_snoc out n :
  snares (out ++ [n]) = (snares out + (if is_snare n then 1 else 0))%nat.
Proof. rewrite snares_app. f_equal. destruct n; reflexivity. Qed.

Lemma inventory_list_not_snare items : is_snare (Inventory.list items) = false.
Proof. destruct items; reflexivity. Qed.

Lemma print_all_eq out : forall s,
  print_all out s = Done tt (mkState (self s) (stdin s) (draws s) (stdout s ++ out)).
Proof.
  induction out as [|n out IH]; intros s; simpl.
  - unfold ret. destruct s; simpl. by rewrite app_nil_r.
  - unfold bind, print. rewrite IH. simpl. by rewrite <- app_assoc.
Qed.

Lemma gain_xp_frame amount p p' out :
  Player.gain_xp amount p = (p', out) ->
  Player.flags p' = Player.flags p
  /\ Player.agility p' = Player.agility p + (Player.level p' - Player.level p)
  /\ snares out = 0%nat.
Proof.
  unfold Player.gain_xp. intros H.
  apply gain_xp_loop_inv in H as (_ & _ & _ & Ha & _ & _ & _ & Hf & Hs).
  auto.
Qed.

Lemma snared_from_refl s : no_defend_tmp s -> snared_from s s.
Proof.
  intros H. exists 0%nat. unfold view. rewrite H. simpl. by rewrite Nat.add_0_r.
Qed.

Lemma snared_from_view s1 s2 s' :
  view s2 = view s1 -> snared_from s2 s' -> snared_from s1 s'.
Proof.
  unfold snared_from, view. intros H [k Hk]. exists k.
  injection H as Ha Hf Hl Hs. rewrite Hk. by rewrite Ha, Hl, Hs.
Qed.

Lemma snared_from_trans s1 s2 s3 :
  snared_from s1 s2 -> snared_from s2 s3 -> snared_from s1 s3.
Proof.
  intros [k1 H1] [k2 H2]. exists (k2 + k1)%nat. rewrite H2.
  unfold view in H1. injection H1 as Ha _ Hl Hs.
  rewrite Ha, Hl, Hs, Nat.iter_add.
  by replace (snares (stdout s1) + k1 + k2)%nat
    with (snares (stdout s1) + (k2 + k1))%nat by lia.
Qed.

Lemma snared_from_no_defend_tmp s s' : snared_from s s' -> no_defend_tmp s'.
Proof. intros [k H]. unfold no_defend_tmp. unfold view in H. congruence. Qed.

Section Execution.

Local Opaque Z.add Z.sub Z.mul Z.quot Z.div Z.modulo Z.max Z.min Z.opp Z.pow.
Local Opaque Z.geb Z.gtb Z.leb Z.ltb Z.eqb Z.to_nat.
Local Opaque String.eqb split strip lower join_space startswith.
Local Opaque Inventory.remove Inventory.list Player.gain_xp.

Variable rand : nat -> Z.

(** Symbolic execution: reduce, then split on the scrutinee of the innermost
    [match] that is left. *)
Ltac exec :=
  repeat (simpl; rewrite ?print_all_eq;
    match goal with
    | |- context [match ?x with _ => _ end] =>
        lazymatch x with
        | context [match _ with _ => _ end] => fail
        | _ => destruct x eqn:?
        end
    end).

Ltac close_view :=
  unfold view; simpl; rewrite ?snares_snoc, ?inventory_list_not_snare; simpl;
  rewrite ?Nat.add_0_r, ?lookup_insert_eq, ?lookup_delete_eq; try reflexivity.

Ltac unfold_monad :=
  unfold prompt, input, choice, randint, roll, random_k, draw, print,
    get_player, get_enemy, get_rewrite_effects,
    set_player, set_enemy, set_rewrite_effects, bind, ret, raise.

Lemma run_loop_S fuel s :
  run_loop rand (S fuel) s =
    (let* p := get_player in
     let* e := get_enemy in
     if Player.alive p && Enemy.alive e then
       let* _ := show_status in
       let* res := player_turn rand in
       match res with
       | Some escaped => ret (Some escaped)
       | _ => rest_of_pass rand fuel
       end
     else ret None) s.
Proof. reflexivity. Qed.

(** [player_turn] reads one line; it leaves agility, level and the defend
    flag alone unless it is a [defend], which returns [None]. *)
Lemma player_turn_frame s :
  match player_turn rand s with
  | Done r s' =>
      length (stdin s) = S (length (stdin s'))
      /\ (view s' = view s \/ (r = None /\ defended s s'))
  | Raised _ s' => view s' = view s
  | OutOfFuel => False
  end.
Proof.
  unfold player_turn, player_attack, player_defend, player_special, item_use,
    Player.modify_health, Player.modify_sanity.
  unfold_monad. exec.
  all: try (split; [reflexivity|]).
  all: try (left; close_view; fail).
  all: try (close_view; fail).
  all: try (right; split; [reflexivity|]; unfold defended; close_view; fail).
Qed.

Lemma show_status_frame s :
  exists s', show_status s = Done tt s' /\ stdin s' = stdin s /\ view s' = view s.
Proof.
  unfold show_status. unfold_monad. simpl.
  eexists; split; [reflexivity|]. simpl. split; [reflexivity|]. close_view.
Qed.

Lemma revert_defend_frame s :
  exists s', revert_defend s = Done tt s' /\ stdin s' = stdin s
    /\ Combat.enemy (self s') = Combat.enemy (self s)
    /\ match Player.flags (Combat.player (self s)) !! "defend_tmp" with
       | Some old =>
           view s' = (int_of_val old, None, Player.level (Combat.player (self s)),
                      snares (stdout s))
       | None => s' = s
       end.
Proof.
  unfold revert_defend. unfold_monad. simpl.
  destruct (Player.flags (Combat.player (self s)) !! "defend_tmp") eqn:E;
    eexists; (split; [reflexivity|]); simpl; repeat split.
  close_view.
Qed.

(** [enemy_turn] never raises; it leaves the agility alone or snares it
    once, narrating the snare once. *)
Lemma enemy_turn_frame s :
  match enemy_turn rand s with
  | Done _ s' =>
      stdin s' = stdin s
      /\ (view s' = view s
          \/ view s' = (snared (Player.agility (Combat.player (self s))),
                        Player.flags (Combat.player (self s)) !! "defend_tmp",
                        Player.level (Combat.player (self s)),
                        S (snares (stdout s))))
  | _ => False
  end.
Proof.
  unfold enemy_turn, special_move, attack_player, apply_special,
    Player.modify_health, Player.modify_sanity.
  unfold_monad. exec.
  all: try (split; [reflexivity|]).
  all: try (left; close_view; fail).
  all: try (right; unfold snared; close_view; rewrite Nat.add_1_r; reflexivity).
Qed.

(** After the loop, only the level-ups of [gain_xp] touch the agility. *)
Lemma run_epilogue_frame s :
  match run_epilogue rand s with
  | Done _ s' =>
      exists g, view s' = (Player.agility (Combat.player (self s)) + g,
                           Player.flags (Combat.player (self s)) !! "defend_tmp",
                           Player.level (Combat.player (self s)) + g,
                           snares (stdout s))
  | _ => False
  end.
Proof.
  unfold run_epilogue. unfold_monad. exec.
  all: try (exists 0; close_view; rewrite ?Z.add_0_r; reflexivity).
  all: match goal with
       | H : Player.gain_xp _ _ = _ |- _ => apply gain_xp_frame in H as (Hf & Ha & Hs)
       end.
  all: exists (Player.level t - Player.level (Combat.player (self s))).
  all: close_view; rewrite ?snares_app, ?snares_snoc, ?Hs, ?Hf, ?Ha; simpl;
       rewrite ?Nat.add_0_r.
  all: try (repeat f_equal; lia).
Qed.

(** The loop of [run], started with more fuel than there are lines to read
    and without a pending defend buff, stops, and between its start and its
    end the agility was only snared. *)
Lemma run_loop_frame fuel : forall s,
  (length (stdin s) < fuel)%nat -> no_defend_tmp s ->
  match run_loop rand fuel s with
  | Done _ s' | Raised _ s' => snared_from s s'
  | OutOfFuel => False
  end.
Proof.
  induction fuel as [|fuel IH]; intros s Hlen Hflag; [lia|].
  rewrite run_loop_S. unfold bind at 1 2, get_player, get_enemy.
  destruct (Player.alive (Combat.player (self s)) && Enemy.alive (Combat.enemy (self s)));
    [|by apply snared_from_refl].
  unfold bind at 1.
  destruct (show_status_frame s) as (s1 & -> & Hin1 & Hv1).
  unfold bind at 1.
  pose proof (player_turn_frame s1) as Hpt.
  destruct (player_turn rand s1) as [r s2|ex s2|]; [| |done].
  2:{ apply snared_from_view with s2; [congruence|].
      apply snared_from_refl. unfold no_defend_tmp, view in *. congruence. }
  destruct Hpt as [Hin2 Hv2].
  assert (Hrest : match rest_of_pass rand fuel s2 with
                  | Done _ s' | Raised _ s' => snared_from s s'
                  | OutOfFuel => False
                  end).
  { unfold rest_of_pass. unfold bind at 1.
    destruct (revert_defend_frame s2) as (s3 & -> & Hin3 & _ & Hv3).
    assert (Hs3 : view s3 = view s).
    { destruct Hv2 as [Hv2|[_ Hv2]].
      - assert (Hn : Player.flags (Combat.player (self s2)) !! "defend_tmp" = None).
        { unfold no_defend_tmp, view in *. congruence. }
        rewrite Hn in Hv3. subst s3. congruence.
      - unfold defended in Hv2.
        assert (Hn : Player.flags (Combat.player (self s2)) !! "defend_tmp"
                     = Some (VInt (Player.agility (Combat.player (self s1))))).
        { unfold view in Hv2. congruence. }
        rewrite Hn in Hv3. rewrite Hv3. simpl.
        unfold view in Hv2, Hv1 |- *. unfold no_defend_tmp in Hflag.
        injection Hv2 as _ _ Hl2 Hs2. injection Hv1 as Ha1 _ Hl1 Hs1.
        rewrite Hflag. congruence. }
    unfold bind at 1, get_enemy.
    destruct (negb (Enemy.alive (Combat.enemy (self s3)))).
    { apply snared_from_view with s3; [congruence|]. apply snared_from_refl.
      unfold no_defend_tmp, view in *. congruence. }
    unfold enemy_acts, bind at 1.
    pose proof (enemy_turn_frame s3) as Het.
    destruct (enemy_turn rand s3) as [[] s4|ex s4|]; [| done | done].
    destruct Het as [Hin4 Hv4].
    assert (Hstep : snared_from s s4).
    { destruct Hv4 as [Hv4|Hv4].
      - apply snared_from_view with s4; [congruence|]. apply snared_from_refl.
        unfold no_defend_tmp, view in *. congruence.
      - exists 1%nat. rewrite Hv4. unfold view in Hs3. unfold no_defend_tmp in Hflag.
        injection Hs3 as Ha Hf Hl Hs. rewrite Ha, Hf, Hl, Hs, Hflag. simpl.
        by rewrite Nat.add_1_r. }
    unfold bind at 1, get_player.
    destruct (negb (Player.alive (Combat.player (self s4)))); [exact Hstep|].
    unfold bind at 1, incr_turn_count.
    match goal with
    | |- match run_loop rand fuel ?s5 with _ => _ end => set (s5' := s5)
    end.
    assert (Hv5 : view s5' = view s4) by reflexivity.
    assert (Hstep5 : snared_from s s5')
      by (destruct Hstep as [k Hk]; exists k; congruence).
    assert (Hlen5 : (length (stdin s5') < fuel)%nat).
    { subst s5'. simpl. rewrite Hin4, Hin3. rewrite <- Hin1 in Hlen. lia. }
    specialize (IH s5' Hlen5 (snared_from_no_defend_tmp _ _ Hstep5)).
    destruct (run_loop rand fuel s5') as [r' s'|ex s'|]; [| |done];
      by apply snared_from_trans with s5'. }
  destruct r as [[]|]; try exact Hrest.
  unfold ret. destruct Hv2 as [Hv2|[? _]]; [|done].
  apply snared_from_view with s2; [congruence|]. apply snared_from_refl.
  unfold no_defend_tmp, view in *. congruence.
Qed.

(** [Combat.run] always comes to an end on a finite input: every pass of
    its loop reads a line, and the end of the input raises [SystemExit]. *)
Lemma run_loop_never_out_of_fuel fuel : forall s,
  (length (stdin s) < fuel)%nat -> run_loop rand fuel s <> OutOfFuel.
Proof.
  induction fuel as [|fuel IH]; intros s Hlen; [lia|].
  rewrite run_loop_S. unfold bind at 1 2, get_player, get_enemy.
  destruct (Player.alive (Combat.player (self s)) && Enemy.alive (Combat.enemy (self s)));
    [|done].
  unfold bind at 1.
  destruct (show_status_frame s) as (s1 & -> & Hin1 & _).
  unfold bind at 1.
  pose proof (player_turn_frame s1) as Hpt.
  destruct (player_turn rand s1) as [r s2|ex s2|]; [|done|done].
  destruct Hpt as [Hin2 _].
  assert (Hrest : rest_of_pass rand fuel s2 <> OutOfFuel).
  { unfold rest_of_pass. unfold bind at 1.
    destruct (revert_defend_frame s2) as (s3 & -> & Hin3 & _).
    unfold bind at 1, get_enemy.
    destruct (negb (Enemy.alive (Combat.enemy (self s3)))); [done|].
    unfold enemy_acts, bind at 1.
    pose proof (enemy_turn_frame s3) as Het.
    destruct (enemy_turn rand s3) as [[] s4|ex s4|]; [| done | done].
    destruct Het as [Hin4 _].
    unfold bind at 1, get_player.
    destruct (negb (Player.alive (Combat.player (self s4)))); [done|].
    unfold bind at 1, incr_turn_count.
    apply IH. simpl. rewrite Hin4, Hin3. rewrite <- Hin1 in Hlen. lia. }
  destruct r as [[]|]; (exact Hrest || done).
Qed.

Theorem run_never_out_of_fuel s : exists s', final_state (run rand s) = Some s'.
Proof.
  unfold run, bind.
  pose proof (run_loop_never_out_of_fuel (S (length (stdin s))) s (Nat.lt_succ_diag_r _)) as H.
  destruct (run_loop rand (S (length (stdin s))) s) as [[o|] s1|ex s1|]; [| | |done].
  - eexists; reflexivity.
  - pose proof (run_epilogue_frame s1) as He.
    destruct (run_epilogue rand s1); [eexists; reflexivity|done|done].
  - eexists; reflexivity.
Qed.

(** C10.  [dream_snare] lowers the player's agility by 2, but not below 1.
    [Combat.run] never gives it back: when [run] stops (and it always does),
    the agility of the player it leaves is the agility at the start, snared
    once for every snare narrated during the fight, plus one point for each
    level gained on victory.  The next fight starts from that player. *)
Theorem dream_snare_persists (s : State) :
  let p := Combat.player (self s) in
  Player.flags p !! "defend_tmp" = None ->
  (let p1 := fst (apply_special dream_snare (Combat.enemy (self s)) p) in
   Player.agility p1 = Z.max 1 (Player.agility p - 2)
   /\ 1 <= Player.agility p1
   /\ (3 <= Player.agility p -> Player.agility p1 = Player.agility p - 2))
  /\ exists s',
       final_state (run rand s) = Some s'
       /\ let p' := Combat.player (self s') in
          Player.agility p' =
            Nat.iter (snares (stdout s') - snares (stdout s)) snared (Player.agility p)
            + (Player.level p' - Player.level p).
Proof.
  intros p Hflag. subst p. split.
  - simpl. lia.
  - unfold run, bind.
    pose proof (run_loop_frame (S (length (stdin s))) s (Nat.lt_succ_diag_r _) Hflag) as H.
    assert (Hdone : forall s1, snared_from s s1 ->
              Player.agility (Combat.player (self s1)) =
                Nat.iter (snares (stdout s1) - snares (stdout s)) snared
                  (Player.agility (Combat.player (self s)))
                + (Player.level (Combat.player (self s1))
                   - Player.level (Combat.player (self s)))).
    { intros s1 [k Hk]. unfold view in Hk. injection Hk as Ha _ Hl Hs.
      rewrite Ha, Hl, Hs.
      replace (snares (stdout s) + k - snares (stdout s))%nat with k by lia. lia. }
    destruct (run_loop rand (S (length (stdin s))) s) as [[o|] s1|ex s1|]; [| | |done].
    + eexists; split; [reflexivity|]. by apply Hdone.
    + pose proof (run_epilogue_frame s1) as He.
      destruct (run_epilogue rand s1) as [r s2| |]; [|done|done].
      eexists; split; [reflexivity|]. simpl.
      destruct H as [k Hk], He as [g Hg]. unfold view in Hk, Hg.
      injection Hk as Ha _ Hl Hs. injection Hg as Ha2 _ Hl2 Hs2.
      rewrite Ha2, Hl2, Hs2, Ha, Hl, Hs.
      replace (snares (stdout s) + k - snares (stdout s))%nat with k by lia. lia.
    + eexists; split; [reflexivity|]. by apply Hdone.
Qed.

End Execution.

(** A Night Surgeon (agility 6) meets the Somber Vendor, types [attack] and
    then [run]; the vendor snares once and the player escapes. *)
Lemma dream_snare_persists_witness :
  let s := start (Player.init "Tester" (CLASS_KEY_MAP night_surgeon)) Somber_Vendor
             ["attack"; "run"] in
  let rand := tape [0; 19; 0; 0; 19; 0] in
  exists s',
    final_state (run rand s) = Some s'
    /\ let p' := Combat.player (self s') in
       Player.agility p' =
         Nat.iter (snares (stdout s') - snares (stdout s)) snared 6
         + (Player.level p' - 1).
Proof.
  exact (proj2 (dream_snare_persists (tape [0; 19; 0; 0; 19; 0])
                  (start (Player.init "Tester" (CLASS_KEY_MAP night_surgeon)) Somber_Vendor
                     ["attack"; "run"]) eq_refl)).
Defined.

(** The same fight, evaluated: agility 6 at the start, 4 when [run] has
    returned ['escaped']. *)
Example snare_then_escape :
  let s := start (Player.init "Tester" (CLASS_KEY_MAP night_surgeon)) Somber_Vendor
             ["attack"; "run"] in
  exists s',
    run (tape [0; 19; 0; 0; 19; 0]) s = Done (Some escaped) s'
    /\ Player.agility (Combat.player (self s)) = 6
    /\ Player.agility (Combat.player (self s')) = 4
    /\ snares (stdout s') = 1%nat.
Proof. eexists. split; [vm_compute; reflexivity|]. vm_compute. repeat split. Qed.

(** ** The commands of the player's turn *)

Section Commands.

Local Opaque Z.add Z.sub Z.mul Z.quot Z.div Z.modulo Z.max Z.min Z.opp Z.pow.
Local Opaque Z.geb Z.gtb Z.leb Z.ltb Z.eqb Z.to_nat.
Local Opaque split strip lower.

Variable rand : nat -> Z.

Ltac unfold_monad :=
  unfold prompt, input, choice, randint, roll, random_k, draw, print,
    get_player, get_enemy, get_rewrite_effects,
    set_player, set_enemy, set_rewrite_effects, bind, ret, raise.

(** Walks into the first pass of the loop, up to the dispatch on the
    command read. *)
Ltac enter_pass Hp He :=
  rewrite run_loop_S; unfold bind at 1 2, get_player, get_enemy;
  rewrite Hp, He; simpl andb; cbv iota.

Ltac read_command Hin Hsplit :=
  unfold show_status, player_turn; unfold_monad; simpl;
  rewrite Hin; simpl; rewrite Hsplit.

(** C2, as the code has it.  For every pair of d20 rolls, the player's
    attack hits exactly when [d20 + floor(player strength / 2)] is at least
    [d20 + floor(enemy agility / 2)], and the enemy's standard attack hits
    exactly when [d20 + floor(enemy agility / 2)] is at least
    [d20 + floor(player agility / 2)]: the enemy rolls on its agility, not
    on its strength.  Ties go to the attacker in both. *)
Theorem attack_accuracy (s : State) :
  let p := Combat.player (self s) in
  let e := Combat.enemy (self s) in
  let d1 := d20 rand (draws s) in
  let d2 := d20 rand (S (draws s)) in
  0 <= Player.strength p -> 0 <= Player.agility p -> 0 <= Enemy.agility e ->
  (d2 + Enemy.agility e / 2 <= d1 + Player.strength p / 2 ->
     exists base s',
       player_attack rand s = Done None s'
       /\ Combat.enemy (self s') = Enemy.take_damage base e
       /\ last (stdout s') = Some (SayYouHit (Enemy.name e) base))
  /\ (d1 + Player.strength p / 2 < d2 + Enemy.agility e / 2 ->
     player_attack rand s =
       Done None
         (mkState (self s) (stdin s) (S (S (draws s))) (stdout s ++ [SayYouMiss])))
  /\ (d2 + Player.agility p / 2 <= d1 + Enemy.agility e / 2 ->
     exists base s',
       attack_player rand s = Done (SayEnemyHit (Enemy.name e) base) s'
       /\ Combat.player (self s') = Player.modify_health (- base) p)
  /\ (d1 + Enemy.agility e / 2 < d2 + Player.agility p / 2 ->
     attack_player rand s =
       Done (SayEnemyMiss (Enemy.name e))
         (mkState (self s) (stdin s) (S (S (draws s))) (stdout s))).
Proof.
  intros p e d1 d2 Hs Hpa Hea. subst p e d1 d2. unfold d20.
  unfold player_attack, attack_player. unfold_monad.
  simpl. rewrite !int_half_floor by assumption.
  repeat split; intros H.
  - apply geb_true_iff in H. rewrite H.
    repeat (simpl;
      match goal with
      | |- context [match ?x with _ => _ end] =>
          lazymatch x with
          | context [match _ with _ => _ end] => fail
          | _ => destruct x eqn:?
          end
      end);
    eexists _, _; (split; [reflexivity|]); simpl; (split; [reflexivity|]);
      apply last_snoc.
  - apply geb_false_iff in H. rewrite H. reflexivity.
  - apply geb_true_iff in H. rewrite H. eexists _, _. split; reflexivity.
  - apply geb_false_iff in H. rewrite H. reflexivity.
Qed.

(** C5.  With [run] typed at the prompt of a fight both sides are alive in,
    for every pair of d20 rolls: when [d20 + floor(player agility / 2)] is
    strictly greater than [d20 + floor(enemy agility / 2)], [Combat.run]
    returns ['escaped'] at once, the [Combat] object untouched (the enemy
    has not acted; two draws were made, for the two rolls); otherwise, equal
    totals included, the attempt fails and [player_turn] returns [None]. *)
Theorem escape_needs_strictly_greater (s : State) (line : string)
    (rest : list string) (tok : string) (args : list string) :
  let p := Combat.player (self s) in
  let e := Combat.enemy (self s) in
  let d1 := d20 rand (draws s) in
  let d2 := d20 rand (S (draws s)) in
  stdin s = line :: rest ->
  split (strip line) = tok :: args ->
  lower tok = "run" ->
  Player.alive p = true -> Enemy.alive e = true ->
  0 <= Player.agility p -> 0 <= Enemy.agility e ->
  (d2 + Enemy.agility e / 2 < d1 + Player.agility p / 2 ->
     run rand s =
       Done (Some escaped)
         (mkState (self s) rest (S (S (draws s)))
            (stdout s ++ status_lines s ++ prompt_lines ++ [SayEscaped])))
  /\ (d1 + Player.agility p / 2 <= d2 + Enemy.agility e / 2 ->
     player_turn rand s =
       Done None
         (mkState (self s) rest (S (S (draws s)))
            (stdout s ++ prompt_lines ++ [SayPulledBack]))).
Proof.
  intros p e d1 d2 Hin Hsplit Hlow Hp He Hpa Hea. subst p e d1 d2. unfold d20.
  split; intros H.
  - unfold run, bind at 1. rewrite Hin. simpl length. enter_pass Hp He.
    read_command Hin Hsplit. rewrite Hlow. simpl.
    rewrite !int_half_floor by assumption.
    apply gtb_true_iff in H. rewrite H. simpl.
    unfold status_lines, prompt_lines. rewrite <- ?app_assoc. reflexivity.
  - read_command Hin Hsplit. rewrite Hlow. simpl.
    rewrite !int_half_floor by assumption.
    apply gtb_false_iff in H. rewrite H. simpl.
    unfold prompt_lines. rewrite <- ?app_assoc. reflexivity.
Qed.

(** C7, as the code has it.  [inventory] and [stats] are read-only, and they
    use up the player's turn: [player_turn] prints the listing, leaves the
    [Combat] object as it was, makes no draw and returns [None] without
    asking again, and the pass of the loop goes on to the enemy's turn. *)
Theorem viewing_consumes_the_turn (s : State) (line : string)
    (rest : list string) (tok : string) (args : list string) (fuel : nat) :
  let p := Combat.player (self s) in
  let e := Combat.enemy (self s) in
  stdin s = line :: rest ->
  split (strip line) = tok :: args ->
  lower tok = "inventory" \/ lower tok = "stats" ->
  Player.alive p = true -> Enemy.alive e = true ->
  let shown :=
    if String.eqb (lower tok) "inventory"
    then Inventory.list (Player.inventory p) else Player.status p in
  player_turn rand s =
    Done None (mkState (self s) rest (draws s) (stdout s ++ prompt_lines ++ [shown]))
  /\ run_loop rand (S fuel) s =
       (let* _ := revert_defend in enemy_acts rand fuel)
         (mkState (self s) rest (draws s)
            (stdout s ++ status_lines s ++ prompt_lines ++ [shown])).
Proof.
  intros p e Hin Hsplit Hcmd Hp He shown. subst p e shown.
  assert (Hrevert : forall s0,
            Enemy.alive (Combat.enemy (self s0)) = true ->
            rest_of_pass rand fuel s0
            = (let* _ := revert_defend in enemy_acts rand fuel) s0).
  { intros s0 Hs0. unfold rest_of_pass, revert_defend. unfold_monad.
    destruct (Player.flags (Combat.player (self s0)) !! "defend_tmp");
      simpl; rewrite Hs0; reflexivity. }
  split.
  - read_command Hin Hsplit.
    destruct Hcmd as [-> | ->]; simpl; unfold prompt_lines;
      rewrite <- ?app_assoc; reflexivity.
  - enter_pass Hp He. read_command Hin Hsplit.
    destruct Hcmd as [-> | ->]; simpl;
      (rewrite Hrevert by exact He); unfold status_lines, prompt_lines;
      rewrite <- ?app_assoc; reflexivity.
Qed.

(** What C4 runs into, for every fight: after [defend] the pass enters the
    enemy's turn in the state it would be in had the player done nothing but
    print the message; the +4 and the [defend_tmp] flag are gone. *)
Lemma defend_changes_nothing_for_the_enemy (s : State) (line : string)
    (rest : list string) (tok : string) (args : list string) (fuel : nat) :
  let p := Combat.player (self s) in
  let e := Combat.enemy (self s) in
  stdin s = line :: rest ->
  split (strip line) = tok :: args ->
  lower tok = "defend" ->
  Player.alive p = true -> Enemy.alive e = true ->
  no_defend_tmp s ->
  run_loop rand (S fuel) s =
    enemy_acts rand fuel
      (mkState (self s) rest (draws s)
         (stdout s ++ status_lines s ++ prompt_lines ++ [SayBrace])).
Proof.
  intros p e Hin Hsplit Hlow Hp He Hflag. subst p e. unfold no_defend_tmp in Hflag.
  enter_pass Hp He. read_command Hin Hsplit. rewrite Hlow. simpl.
  unfold player_defend, rest_of_pass, revert_defend. unfold_monad. simpl.
  rewrite lookup_insert_eq. simpl. rewrite He. simpl.
  rewrite delete_insert_eq, delete_id by exact Hflag.
  unfold status_lines, prompt_lines. rewrite <- ?app_assoc. simpl.
  destruct s as [[pl en tc rw] inp d out]. destruct pl. reflexivity.
Qed.

(** The part of C6 that holds: a Lucid Magician's special sets the flag
    exactly when [d20 + magic >= 15]. *)
Lemma rewrite_sets_the_flag (s : State) :
  let p := Combat.player (self s) in
  let c := self s in
  let d := d20 rand (draws s) in
  Player.cls p = lucid_magician ->
  Combat.rewrite_effects c !! "rewritten" = None ->
  (15 <= d + Player.magic p ->
     player_special rand s =
       Done None
         (mkState
            (Combat.mk p (Combat.enemy c) (Combat.turn_count c)
               (<["enemy_miss_next" := true]> (Combat.rewrite_effects c)))
            (stdin s) (S (draws s)) (stdout s ++ [SayRewrite])))
  /\ (d + Player.magic p < 15 ->
     player_special rand s =
       Done None (mkState c (stdin s) (S (draws s)) (stdout s ++ [SayRewriteFails]))).
Proof.
  intros p c d Hcls Hrw. subst p c d. unfold d20, player_special. unfold_monad.
  simpl. rewrite Hcls, Hrw.
  split; intros H.
  - apply geb_true_iff in H. rewrite H. reflexivity.
  - apply geb_false_iff in H. rewrite H. reflexivity.
Qed.

(** The part of C6 that holds: a pending flag is used up by the next enemy
    turn, which does nothing else (no draw, no attack, no special). *)
Lemma pending_flag_skips_the_enemy_turn (s : State) :
  let c := self s in
  Enemy.alive (Combat.enemy c) = true ->
  Combat.rewrite_effects c !! "enemy_miss_next" = Some true ->
  enemy_turn rand s =
    Done tt
      (mkState
         (Combat.mk (Combat.player c) (Combat.enemy c) (Combat.turn_count c)
            (delete "enemy_miss_next" (Combat.rewrite_effects c)))
         (stdin s) (draws s) (stdout s ++ [SayRewriteHolds])).
Proof.
  intros c He Hrw. subst c. unfold enemy_turn. unfold_monad.
  cbv beta. rewrite He. cbv beta iota delta [negb]. rewrite Hrw. reflexivity.
Qed.

End Commands.

(** ** Evaluations *)

(** C9 fails on the empty line (and on any blank one): [choice.split()] is
    empty, [tokens[0]] raises [IndexError], nothing catches it, and it leaves
    [player_turn] and [Combat.run]. *)
Theorem blank_line_raises_IndexError (rand : nat -> Z) (c : Combat.t)
    (rest : list string) (d : nat) (out : list Narration) :
  player_turn rand (mkState c ("" :: rest) d out) =
    Raised IndexError (mkState c rest d (out ++ prompt_lines))
  /\ player_turn rand (mkState c ("   " :: rest) d out) =
       Raised IndexError (mkState c rest d (out ++ prompt_lines))
  /\ let s := start (Player.init "Tester" (CLASS_KEY_MAP night_surgeon)) Token_Thief [""] in
     run rand s = Raised IndexError (mkState (self s) [] 0 (status_lines s ++ prompt_lines)).
Proof.
  split; [|split].
  - unfold player_turn, prompt, input, print, bind, ret, raise. simpl.
    unfold prompt_lines. rewrite <- ?app_assoc. reflexivity.
  - unfold player_turn, prompt, input, print, bind, ret, raise. simpl.
    unfold prompt_lines. rewrite <- ?app_assoc. reflexivity.
  - reflexivity.
Qed.


(** A Sleep-Poltergeist (strength 9, agility 5) attacks a Night Surgeon
    (agility 6); both roll 10.  On strength the attack would hit (14 against
    13); the code rolls on agility (12 against 13) and misses. *)
Lemma attack_accuracy_witness :
  let s := start (Player.init "Tester" (CLASS_KEY_MAP night_surgeon))
             Sleep_Poltergeist [] in
  attack_player (tape [9; 9]) s =
    Done (SayEnemyMiss "Sleep-Poltergeist") (mkState (self s) [] 2 []).
Proof.
  apply (attack_accuracy (tape [9; 9])
           (start (Player.init "Tester" (CLASS_KEY_MAP night_surgeon))
              Sleep_Poltergeist []));
    vm_compute; first [reflexivity | discriminate].
Defined.

(** C2 as stated fails for the enemy: with the rolls above
    [d20 + floor(enemy strength / 2)] is at least
    [d20 + floor(player agility / 2)], and the enemy misses. *)
Lemma enemy_attack_counterexample :
  let p := Player.init "Tester" (CLASS_KEY_MAP night_surgeon) in
  let e := Sleep_Poltergeist in
  let s := start p e [] in
  let rand := tape [9; 9] in
  d20 rand 1 + Player.agility p / 2 <= d20 rand 0 + Enemy.strength e / 2
  /\ attack_player rand s
     = Done (SayEnemyMiss "Sleep-Poltergeist") (mkState (self s) [] 2 []).
Proof. split; [vm_compute; discriminate | vm_compute; reflexivity]. Qed.

(** A Night Surgeon (agility 6) runs from a Token Thief (agility 9): with
    rolls of 11 and 10 the totals are 14 and 14 and the escape fails; with
    12 and 10 it succeeds. *)
Lemma escape_needs_strictly_greater_witness :
  let s := start (Player.init "Tester" (CLASS_KEY_MAP night_surgeon)) Token_Thief
             ["run"] in
  run (tape [11; 9]) s =
    Done (Some escaped)
      (mkState (self s) [] 2 (status_lines s ++ prompt_lines ++ [SayEscaped]))
  /\ player_turn (tape [10; 9]) s =
       Done None (mkState (self s) [] 2 (prompt_lines ++ [SayPulledBack])).
Proof.
  pose proof (escape_needs_strictly_greater (tape [11; 9])
                (start (Player.init "Tester" (CLASS_KEY_MAP night_surgeon)) Token_Thief
                   ["run"]) "run" [] "run" []) as H1.
  pose proof (escape_needs_strictly_greater (tape [10; 9])
                (start (Player.init "Tester" (CLASS_KEY_MAP night_surgeon)) Token_Thief
                   ["run"]) "run" [] "run" []) as H2.
  split.
  - apply H1; vm_compute; first [reflexivity | discriminate].
  - apply H2; vm_compute; first [reflexivity | discriminate].
Defined.

(** A Night Surgeon types [inventory] in front of a Token Thief. *)
Lemma viewing_consumes_the_turn_witness :
  let p := Player.init "Tester" (CLASS_KEY_MAP night_surgeon) in
  let s := start p Token_Thief ["inventory"] in
  let rand := tape [9; 9; 0] in
  player_turn rand s =
    Done None (mkState (self s) [] 0 (prompt_lines ++ [SayInventoryEmpty]))
  /\ run_loop rand 1 s =
       (let* _ := revert_defend in enemy_acts rand 0)
         (mkState (self s) [] 0
            (status_lines s ++ prompt_lines ++ [SayInventoryEmpty])).
Proof.
  apply (viewing_consumes_the_turn (tape [9; 9; 0])
           (start (Player.init "Tester" (CLASS_KEY_MAP night_surgeon)) Token_Thief
              ["inventory"]) "inventory" [] "inventory" [] 0).
  - reflexivity.
  - reflexivity.
  - left. reflexivity.
  - reflexivity.
  - reflexivity.
Defined.

(** C7 as stated fails: a Night Surgeon types [inventory], then [run].  The
    inventory is listed, and before the next prompt the Token Thief attacks
    (both roll 10: 14 against 13) and hits for 7. *)
Lemma inventory_lets_the_enemy_act_counterexample :
  let p := Player.init "Tester" (CLASS_KEY_MAP night_surgeon) in
  let s := start p Token_Thief ["inventory"; "run"] in
  exists s',
    run (tape [9; 9; 0; 19; 0]) s = Done (Some escaped) s'
    /\ Player.health (Combat.player (self s')) = Player.health p - 7
    /\ Combat.turn_count (self s') = 1
    /\ stdout s' =
         [SayCombatHeader "Tester" "Token Thief";
          SayStatus "Tester" "Night Surgeon" 1 90 90 80 8 6 6 0 None;
          SayEnemyHP "Token Thief" 35 35;
          SayOptions; SayPromptText "What do you do? (type command)";
          SayInventoryEmpty;
          SayEnemyHit "Token Thief" 7;
          SayCombatHeader "Tester" "Token Thief";
          SayStatus "Tester" "Night Surgeon" 1 83 90 80 8 6 6 0 None;
          SayEnemyHP "Token Thief" 35 35;
          SayOptions; SayPromptText "What do you do? (type command)";
          SayEscaped].
Proof. eexists. split; [vm_compute; reflexivity|]. vm_compute. repeat split. Qed.

(** C4 fails on the code: a Night Surgeon (agility 6) types [defend] in
    front of a Token Thief (agility 9), and both roll 10.  The thief's hit
    roll is 14.  With the +4 in effect the evasion would be 15 and the attack
    would miss; [run] has restored the agility before [enemy_turn], the
    evasion is 13, and the attack hits for 7.  (The player then escapes, to
    end the fight.) *)
Theorem defend_is_reverted_before_the_enemy_acts :
  let p := Player.init "Tester" (CLASS_KEY_MAP night_surgeon) in
  let e := Token_Thief in
  let rand := tape [9; 9; 0; 19; 0] in
  let s := start p e ["defend"; "run"] in
  d20 rand 0 + int_half (Enemy.agility e) = 14
  /\ d20 rand 1 + int_half (Player.agility p + 4) = 15
  /\ d20 rand 1 + int_half (Player.agility p) = 13
  /\ exists s',
       run rand s = Done (Some escaped) s'
       /\ Player.health (Combat.player (self s')) = Player.health p - 7
       /\ stdout s' =
            [SayCombatHeader "Tester" "Token Thief";
             SayStatus "Tester" "Night Surgeon" 1 90 90 80 8 6 6 0 None;
             SayEnemyHP "Token Thief" 35 35;
             SayOptions; SayPromptText "What do you do? (type command)";
             SayBrace;
             SayEnemyHit "Token Thief" 7;
             SayCombatHeader "Tester" "Token Thief";
             SayStatus "Tester" "Night Surgeon" 1 83 90 80 8 6 6 0 None;
             SayEnemyHP "Token Thief" 35 35;
             SayOptions; SayPromptText "What do you do? (type command)";
             SayEscaped].
Proof.
  repeat (split; [reflexivity|]).
  eexists. split; [vm_compute; reflexivity|]. vm_compute. repeat split.
Qed.

(** C6 fails on the code: a Lucid Magician (magic 12) calls the special
    twice.  The first call (roll 10) sets the flag.  The second call finds it
    pending, and is not refused: it rolls again and, on a 10, sets the flag
    again; on a 1 it narrates a failed rewrite.  The guard looks up the key
    ['rewritten'], which nothing ever stores. *)
Theorem lucid_special_rolls_again_while_pending :
  let p := Player.init "Tester" (CLASS_KEY_MAP lucid_magician) in
  let s := start p Token_Thief ["special"; "special"] in
  exists s1 s2 s2',
    player_turn (tape [9; 9]) s = Done None s1
    /\ Combat.rewrite_effects (self s1) !! "enemy_miss_next" = Some true
    /\ player_turn (tape [9; 9]) s1 = Done None s2
    /\ draws s2 = S (draws s1)
    /\ stdout s2 = stdout s1 ++ prompt_lines ++ [SayRewrite]
    /\ player_turn (tape [9; 0]) s1 = Done None s2'
    /\ draws s2' = S (draws s1)
    /\ stdout s2' = stdout s1 ++ prompt_lines ++ [SayRewriteFails].
Proof.
  eexists _, _, _.
  split; [vm_compute; reflexivity|].
  split; [vm_compute; reflexivity|].
  split; [vm_compute; reflexivity|].
  split; [reflexivity|].
  split; [reflexivity|].
  split; [vm_compute; reflexivity|].
  split; reflexivity.
Qed.

(** * Further properties of the code *)

(** ** The inventory *)

Lemma remove_Some item_name : forall items it rest,
  Inventory.remove item_name items = Some (it, rest) ->
  exists pre post,
    items = pre ++ it :: post /\ rest = pre ++ post
    /\ lower (Item.name it) = lower item_name
    /\ Forall (fun other => lower (Item.name other) <> lower item_name) pre.
Proof.
  induction items as [|x items IH]; intros it rest H; simpl in H; [discriminate|].
  destruct (String.eqb_spec (lower (Item.name x)) (lower item_name)) as [E|E].
  - inversion H; subst. exists [], rest. repeat split; auto.
  - destruct (Inventory.remove item_name items) as [[found rest']|] eqn:R; [|discriminate].
    inversion H; subst. destruct (IH _ _ eq_refl) as (pre & post & -> & -> & Hn & Hpre).
    exists (x :: pre), post. repeat split; auto.
Qed.

Lemma remove_None item_name : forall items,
  Inventory.remove item_name items = None <->
  Forall (fun other => lower (Item.name other) <> lower item_name) items.
Proof.
  induction items as [|x items IH]; simpl.
  - split; auto.
  - destruct (String.eqb_spec (lower (Item.name x)) (lower item_name)) as [E|E].
    + split; [discriminate|]. intros H. inversion H; subst. contradiction.
    + destruct (Inventory.remove item_name items) as [[found rest']|] eqn:R.
      * split; [discriminate|]. intros H. inversion H; subst.
        apply IH in H3. discriminate.
      * split; auto. intros _. constructor; auto. by apply IH.
Qed.

(** X1.  [Inventory.remove] takes out exactly one item, the first whose name
    equals the given one up to letter case, and leaves the others in their
    order; it returns [None] exactly when no name matches. *)
Theorem remove_takes_the_first_match (item_name : string) (items : Inventory.t) :
  match Inventory.remove item_name items with
  | Some (it, rest) =>
      exists pre post,
        items = pre ++ it :: post /\ rest = pre ++ post
        /\ lower (Item.name it) = lower item_name
        /\ Forall (fun other => lower (Item.name other) <> lower item_name) pre
  | None => Forall (fun other => lower (Item.name other) <> lower item_name) items
  end.
Proof.
  destruct (Inventory.remove item_name items) as [[it rest]|] eqn:H.
  - by apply remove_Some.
  - by apply remove_None.
Qed.

(** X2.  Adding an item and removing it by its name, in any letter case,
    gives the item and the inventory back, when no item already there has
    that name. *)
Theorem add_then_remove (item : Item.t) (typed : string) (items : Inventory.t) :
  lower typed = lower (Item.name item) ->
  Forall (fun other => lower (Item.name other) <> lower typed) items ->
  Inventory.remove typed (Inventory.add item items) = Some (item, items).
Proof.
  intros Hn Hnone. unfold Inventory.add.
  induction Hnone as [|x items Hx Hrest IH]; simpl.
  - rewrite Hn, String.eqb_refl. reflexivity.
  - destruct (String.eqb_spec (lower (Item.name x)) (lower typed)); [contradiction|].
    rewrite IH. reflexivity.
Qed.

Lemma add_then_remove_witness :
  Inventory.remove "dream elixir" (Inventory.add Dream_Elixir [Calm_Mist])
  = Some (Dream_Elixir, [Calm_Mist]).
Proof.
  apply (add_then_remove Dream_Elixir "dream elixir" [Calm_Mist]).
  - reflexivity.
  - repeat constructor. vm_compute. discriminate.
Defined.









(** ** Enemies under damage *)

(** X4.  For an enemy whose [alive] agrees with [hp > 0] and whose [hp] is
    within [0 .. max_hp] (a new enemy with positive hit points), any
    sequence of non-negative damage keeps both: [hp] only goes down, never
    below 0, and [alive] is true exactly while [hp > 0]. *)
Theorem enemy_alive_iff_hp_under_damage (ds : list Z) (e : Enemy.t) :
  Forall (fun d => 0 <= d) ds ->
  0 <= Enemy.hp e <= Enemy.max_hp e ->
  Enemy.alive e = (0 <? Enemy.hp e) ->
  let e' := damages ds e in
  0 <= Enemy.hp e' <= Enemy.hp e
  /\ Enemy.max_hp e' = Enemy.max_hp e
  /\ Enemy.alive e' = (0 <? Enemy.hp e').
Proof.
  intros Hds. revert e. induction Hds as [|d ds Hd Hds IH]; intros e Hhp Ha; simpl.
  - repeat split; lia || assumption.
  - destruct (IH (Enemy.take_damage d e)) as (H1 & H2 & H3).
    + unfold Enemy.take_damage. simpl. case_match; simpl; lia.
    + unfold Enemy.take_damage. simpl.
      destruct (Z.eqb_spec (Z.max 0 (Enemy.hp e - d)) 0) as [E|E]; simpl.
      * rewrite E. reflexivity.
      * rewrite Ha.
        destruct (Z.ltb_spec 0 (Enemy.hp e)), (Z.ltb_spec 0 (Z.max 0 (Enemy.hp e - d)));
          try reflexivity; lia.
    + assert (Hle : Enemy.hp (Enemy.take_damage d e) <= Enemy.hp e)
        by (unfold Enemy.take_damage; simpl; case_match; simpl; lia).
      assert (Hmx : Enemy.max_hp (Enemy.take_damage d e) = Enemy.max_hp e)
        by (unfold Enemy.take_damage; simpl; case_match; reflexivity).
      repeat split; try lia; try assumption; congruence.
Qed.

(** The enemy of the repository's test: 50 hit points, hit for 20 and 30. *)
Lemma enemy_alive_iff_hp_under_damage_witness :
  let e' := damages [20; 30] (Enemy.init "Test Enemy" 50 5 5 5 "Desc" 1 []) in
  0 <= Enemy.hp e' <= 50 /\ Enemy.max_hp e' = 50 /\ Enemy.alive e' = (0 <? Enemy.hp e').
Proof.
  apply (enemy_alive_iff_hp_under_damage [20; 30]
           (Enemy.init "Test Enemy" 50 5 5 5 "Desc" 1 [])).
  - repeat constructor; lia.
  - simpl. lia.
  - reflexivity.
Defined.

(** ** Experience adds up *)

Lemma leveled_S n q : leveled (S n) q = leveled n (Player.level_up q).
Proof. unfold leveled. by rewrite Nat.iter_succ_r. Qed.

Lemma leveled_add n m q : leveled (n + m) q = leveled m (leveled n q).
Proof. unfold leveled. by rewrite Nat.add_comm, Nat.iter_add. Qed.

(** [gain_xp] stops at the first number of passes after which the loop
    condition fails. *)
Lemma gain_xp_loop_least fuel : forall q q' out,
  (Player.gain_xp_passes q <= fuel)%nat ->
  Player.gain_xp_loop fuel q = (q', out) ->
  exists n, q' = leveled n q /\ stays q'
            /\ forall m, (m < n)%nat -> ~ stays (leveled m q).
Proof.
  induction fuel as [|fuel IH]; intros q q' out Hf H.
  - pose proof (gain_xp_loop_exits 0 q q' out Hf H) as Hx.
    simpl in H. inversion H; subst. exists 0%nat. repeat split; [exact Hx|lia].
  - pose proof (gain_xp_loop_exits _ q q' out Hf H) as Hx.
    simpl in H. destruct (Player.xp q >=? 100 * Player.level q) eqn:E.
    + destruct (Player.gain_xp_loop fuel (Player.level_up q)) as [q2 o2] eqn:E2.
      inversion H; subst. apply geb_true_iff in E.
      assert (Hge : Player.xp q >= 100 * Player.level q) by lia.
      pose proof (gain_xp_passes_level_up q Hge) as Hlt.
      assert (Hp : (Player.gain_xp_passes (Player.level_up q) <= fuel)%nat) by lia.
      destruct (IH _ _ _ Hp E2) as (n & -> & Hs & Hm).
      exists (S n). rewrite leveled_S. repeat split; [exact Hs|].
      intros [|m] Hm'; [unfold stays, leveled; simpl; lia|].
      rewrite leveled_S. apply Hm. lia.
    + inversion H; subst. exists 0%nat. repeat split; [exact Hx|lia].
Qed.

Lemma leveled_set_xp b n : forall q,
  leveled n (Player.set_xp (Player.xp q + b) q)
  = Player.set_xp (Player.xp (leveled n q) + b) (leveled n q).
Proof.
  induction n as [|n IH]; intros q; [reflexivity|].
  rewrite !leveled_S.
  change (Player.level_up (Player.set_xp (Player.xp q + b) q))
    with (Player.set_xp (Player.xp q + b - 100 * Player.level q) (Player.level_up q)).
  replace (Player.xp q + b - 100 * Player.level q)
    with (Player.xp (Player.level_up q) + b) by (simpl; lia).
  apply IH.
Qed.

(** X5.  Experience adds up: an award of [a] followed by an award of
    [b >= 0] leaves the player that one award of [a + b] leaves (level,
    stats, [max_health] and remaining [xp]). *)
Theorem gain_xp_adds_up (p : Player.t) (a b : Z) :
  0 <= b ->
  fst (Player.gain_xp b (fst (Player.gain_xp a p))) = fst (Player.gain_xp (a + b) p).
Proof.
  intros Hb. unfold Player.gain_xp.
  set (qa := Player.set_xp (Player.xp p + a) p).
  destruct (Player.gain_xp_loop (Player.gain_xp_passes qa) qa) as [p1 o1] eqn:E1.
  destruct (gain_xp_loop_least _ _ _ _ (Nat.le_refl _) E1) as (n1 & -> & Hs1 & Hm1).
  simpl fst.
  set (qb := Player.set_xp (Player.xp (leveled n1 qa) + b) (leveled n1 qa)).
  destruct (Player.gain_xp_loop (Player.gain_xp_passes qb) qb) as [p2 o2] eqn:E2.
  destruct (gain_xp_loop_least _ _ _ _ (Nat.le_refl _) E2) as (n2 & -> & Hs2 & Hm2).
  set (q := Player.set_xp (Player.xp p + (a + b)) p).
  destruct (Player.gain_xp_loop (Player.gain_xp_passes q) q) as [p3 o3] eqn:E3.
  destruct (gain_xp_loop_least _ _ _ _ (Nat.le_refl _) E3) as (n3 & -> & Hs3 & Hm3).
  simpl fst.
  assert (Hq : q = Player.set_xp (Player.xp qa + b) qa).
  { subst q qa. simpl. unfold Player.set_xp. simpl. f_equal. lia. }
  assert (Hqb : forall m, leveled m qb = leveled (n1 + m) q).
  { intros m. subst qb. rewrite leveled_add, Hq, (leveled_set_xp b n1 qa). reflexivity. }
  rewrite Hqb in Hs2 |- *.
  assert (Hbefore : forall m, (m < n1 + n2)%nat -> ~ stays (leveled m q)).
  { intros m Hlt. destruct (Nat.lt_ge_cases m n1) as [Hm|Hm].
    - specialize (Hm1 m Hm). rewrite Hq, leveled_set_xp. unfold stays in *. simpl. lia.
    - replace m with (n1 + (m - n1))%nat by lia. rewrite <- Hqb. apply Hm2. lia. }
  destruct (Nat.lt_trichotomy n3 (n1 + n2)) as [Hlt|[->|Hgt]]; [|reflexivity|].
  - exfalso. exact (Hbefore n3 Hlt Hs3).
  - exfalso. exact (Hm3 (n1 + n2)%nat Hgt Hs2).
Qed.

(** 90 XP and then 260 XP, against 350 XP at once. *)
Lemma gain_xp_adds_up_witness :
  let p := Player.init "Tester" (CLASS_KEY_MAP night_surgeon) in
  fst (Player.gain_xp 260 (fst (Player.gain_xp 90 p))) = fst (Player.gain_xp (90 + 260) p).
Proof.
  apply (gain_xp_adds_up (Player.init "Tester" (CLASS_KEY_MAP night_surgeon)) 90 260). lia.
Defined.

(** ** What a fight keeps *)

Lemma gain_xp_loop_alive fuel : forall p p' out,
  Player.gain_xp_loop fuel p = (p', out) -> Player.alive p' = Player.alive p.
Proof.
  induction fuel as [|fuel IH]; intros p p' out H; simpl in H.
  - by inversion H.
  - destruct (Player.xp p >=? 100 * Player.level p).
    + destruct (Player.gain_xp_loop fuel (Player.level_up p)) as [p2 o2] eqn:E2.
      inversion H; subst. by apply IH in E2.
    + by inversion H.
Qed.

Lemma gain_xp_alive amount p p' out :
  Player.gain_xp amount p = (p', out) -> Player.alive p' = Player.alive p.
Proof. unfold Player.gain_xp. intros H. by apply gain_xp_loop_alive in H. Qed.

Lemma gain_xp_loop_stable P (HP : combat_stable P) fuel : forall p p' out,
  Player.gain_xp_loop fuel p = (p', out) -> P p -> P p'.
Proof.
  induction fuel as [|fuel IH]; intros p p' out H Hp; simpl in H.
  - by inversion H; subst.
  - destruct (Player.xp p >=? 100 * Player.level p).
    + destruct (Player.gain_xp_loop fuel (Player.level_up p)) as [p2 o2] eqn:E2.
      inversion H; subst. eapply IH; [exact E2|]. by apply stable_level_up.
    + by inversion H; subst.
Qed.

Lemma gain_xp_stable P (HP : combat_stable P) amount p p' out :
  Player.gain_xp amount p = (p', out) -> P p -> P p'.
Proof.
  unfold Player.gain_xp. intros H Hp.
  eapply gain_xp_loop_stable; [exact HP|exact H|]. by apply stable_xp.
Qed.

Section Fights.

Local Opaque Z.add Z.sub Z.mul Z.quot Z.div Z.modulo Z.max Z.min Z.opp Z.pow.
Local Opaque Z.geb Z.gtb Z.leb Z.ltb Z.eqb Z.to_nat.
Local Opaque String.eqb split strip lower join_space startswith.
Local Opaque Inventory.remove Inventory.list Inventory.add Player.gain_xp.
Local Opaque Player.modify_health Player.modify_sanity.

Variable rand : nat -> Z.

Ltac exec :=
  repeat (simpl; rewrite ?print_all_eq;
    match goal with
    | |- context [match ?x with _ => _ end] =>
        lazymatch x with
        | context [match _ with _ => _ end] => fail
        | _ => destruct x eqn:?
        end
    end).

Ltac unfold_monad :=
  unfold prompt, input, choice, randint, roll, random_k, draw, print,
    get_player, get_enemy, get_rewrite_effects,
    set_player, set_enemy, set_rewrite_effects, bind, ret, raise.

(** [player_turn] returns [None] or, leaving the fight as it is,
    ['escaped']; it raises nothing but [IndexError] and [SystemExit(0)]. *)
Lemma player_turn_outcome s :
  match player_turn rand s with
  | Done r s' => r = None \/ (r = Some escaped /\ self s' = self s)
  | Raised e _ => e = IndexError \/ e = SystemExit 0
  | OutOfFuel => False
  end.
Proof.
  unfold player_turn, player_attack, player_defend, player_special, item_use.
  unfold_monad. exec; auto.
Qed.

Section Stable.

Variable P : Player.t -> Prop.
Hypothesis HP : combat_stable P.

Ltac stable_step :=
  match goal with
  | |- P (Player.modify_health _ _) => apply (stable_health P HP)
  | |- P (Player.modify_sanity _ _) => apply (stable_sanity P HP)
  | |- P (Player.set_agility _ _) => apply (stable_agility P HP)
  | |- P (Player.set_flags (<[_:=_]> _) ?q) => apply (stable_defend_set P HP q)
  | |- P (Player.set_flags (delete _ _) ?q) => apply (stable_defend_pop P HP q)
  | |- P (Player.set_inventory (Inventory.add ?it _) ?q) =>
      apply (stable_item_gained P HP q it); [auto|]
  | |- P (Player.set_class_resource _ ?q) => apply (stable_extracted P HP q)
  | H : Inventory.remove ?n _ = Some (?it, ?rest) |- P (Player.set_inventory ?rest ?q) =>
      apply (stable_item_used P HP q n it rest H)
  | H : Player.gain_xp _ _ = (?p1, _) |- P ?p1 =>
      apply (gain_xp_stable P HP _ _ _ _ H)
  end.

Ltac stable := simpl; repeat stable_step; try assumption.

Lemma player_turn_stable s :
  P (Combat.player (self s)) ->
  match player_turn rand s with
  | Done _ s' | Raised _ s' => P (Combat.player (self s'))
  | OutOfFuel => False
  end.
Proof.
  intros H.
  unfold player_turn, player_attack, player_defend, player_special, item_use.
  unfold_monad. exec; stable.
Qed.

Lemma enemy_turn_stable s :
  P (Combat.player (self s)) ->
  match enemy_turn rand s with
  | Done _ s' => P (Combat.player (self s'))
  | _ => False
  end.
Proof.
  intros H.
  unfold enemy_turn, special_move, attack_player, apply_special.
  unfold_monad. exec; stable.
Qed.

Lemma revert_defend_stable s :
  P (Combat.player (self s)) ->
  exists s', revert_defend s = Done tt s' /\ stdin s' = stdin s
             /\ P (Combat.player (self s')).
Proof.
  intros H. unfold revert_defend. unfold_monad. simpl.
  destruct (Player.flags (Combat.player (self s)) !! "defend_tmp");
    eexists; (split; [reflexivity|]); (split; [reflexivity|]); stable.
Qed.

Lemma run_epilogue_stable s :
  P (Combat.player (self s)) ->
  match run_epilogue rand s with
  | Done _ s' => P (Combat.player (self s'))
  | _ => False
  end.
Proof.
  intros H. unfold run_epilogue. unfold_monad. exec; stable.
Qed.

Lemma run_loop_stable fuel : forall s,
  P (Combat.player (self s)) ->
  match run_loop rand fuel s with
  | Done _ s' | Raised _ s' => P (Combat.player (self s'))
  | OutOfFuel => True
  end.
Proof.
  induction fuel as [|fuel IH]; intros s Hs; [exact I|].
  rewrite run_loop_S. unfold bind at 1 2, get_player, get_enemy.
  destruct (Player.alive (Combat.player (self s)) && Enemy.alive (Combat.enemy (self s)));
    [|exact Hs].
  unfold bind at 1, show_status. unfold_monad. simpl.
  match goal with
  | |- match match player_turn rand ?s1 with _ => _ end with _ => _ end =>
      pose proof (player_turn_stable s1 Hs) as Hpt;
      destruct (player_turn rand s1) as [r s2|ex s2|]; [| exact Hpt | exact I]
  end.
  assert (Hrest : match rest_of_pass rand fuel s2 with
                  | Done _ s' | Raised _ s' => P (Combat.player (self s'))
                  | OutOfFuel => True
                  end).
  { unfold rest_of_pass. unfold bind at 1.
    destruct (revert_defend_stable s2 Hpt) as (s3 & -> & _ & H3).
    unfold bind at 1, get_enemy.
    destruct (negb (Enemy.alive (Combat.enemy (self s3)))); [exact H3|].
    unfold enemy_acts, bind at 1.
    pose proof (enemy_turn_stable s3 H3) as Het.
    destruct (enemy_turn rand s3) as [[] s4|ex s4|]; [| done | done].
    unfold bind at 1, get_player.
    destruct (negb (Player.alive (Combat.player (self s4)))); [exact Het|].
    unfold bind at 1, incr_turn_count. apply IH. exact Het. }
  destruct r as [[]|]; (exact Hrest || exact Hpt).
Qed.

(** Whatever every mutation of a fight keeps, the fight keeps, however it
    ends. *)
Lemma run_stable s :
  P (Combat.player (self s)) ->
  ends_with rand s (fun s' => P (Combat.player (self s'))).
Proof.
  intros Hs. unfold ends_with, run, bind.
  pose proof (run_loop_stable (S (length (stdin s))) s Hs) as H.
  pose proof (run_loop_never_out_of_fuel rand (S (length (stdin s))) s
                (Nat.lt_succ_diag_r _)) as Hfuel.
  destruct (run_loop rand (S (length (stdin s))) s) as [[o|] s1|ex s1|]; simpl;
    [exact H| |exact H|done].
  pose proof (run_epilogue_stable s1 H) as He.
  destruct (run_epilogue rand s1); simpl; [exact He|done|done].
Qed.

End Stable.

Lemma run_epilogue_outcome s :
  let p := Combat.player (self s) in
  let e := Combat.enemy (self s) in
  match run_epilogue rand s with
  | Done r s' =>
      let p' := Combat.player (self s') in
      let e' := Combat.enemy (self s') in
      (Player.alive p = false /\ r = Some player_dead /\ Player.alive p' = false)
      \/ (Player.alive p = true /\ Enemy.alive e = false /\ r = Some enemy_dead
          /\ Player.alive p' = true /\ Enemy.alive e' = false)
      \/ (Player.alive p = true /\ Enemy.alive e = true /\ r = None)
  | _ => False
  end.
Proof.
  unfold run_epilogue. unfold_monad. exec.
  all: repeat match goal with
       | H : negb _ = true |- _ => apply negb_true_iff in H
       | H : negb _ = false |- _ => apply negb_false_iff in H
       end.
  all: try (left; repeat split; assumption).
  all: try (right; right; repeat split; assumption).
  all: right; left.
  all: match goal with
       | H : Player.gain_xp _ _ = _ |- _ => apply gain_xp_alive in H
       end.
  all: repeat split; simpl; congruence.
Qed.

Lemma run_loop_outcome fuel : forall s,
  (length (stdin s) < fuel)%nat ->
  match run_loop rand fuel s with
  | Done None s' =>
      Player.alive (Combat.player (self s')) = false
      \/ Enemy.alive (Combat.enemy (self s')) = false
  | Done (Some o) s' =>
      o = escaped /\ Player.alive (Combat.player (self s')) = true
      /\ Enemy.alive (Combat.enemy (self s')) = true
  | Raised e _ => e = IndexError \/ e = SystemExit 0
  | OutOfFuel => False
  end.
Proof.
  induction fuel as [|fuel IH]; intros s Hlen; [lia|].
  rewrite run_loop_S. unfold bind at 1 2, get_player, get_enemy.
  destruct (Player.alive (Combat.player (self s))) eqn:Hp; simpl; [|by left].
  destruct (Enemy.alive (Combat.enemy (self s))) eqn:He; simpl; [|by right].
  unfold bind at 1, show_status. unfold_monad. simpl.
  match goal with
  | |- match match player_turn rand ?s1 with _ => _ end with _ => _ end =>
      pose proof (player_turn_outcome s1) as Hpt;
      pose proof (player_turn_frame rand s1) as Hfr;
      destruct (player_turn rand s1) as [r s2|ex s2|]; [| exact Hpt | exact Hpt]
  end.
  simpl in Hfr. destruct Hfr as [Hin2 _].
  assert (Hrest : match rest_of_pass rand fuel s2 with
                  | Done None s' =>
                      Player.alive (Combat.player (self s')) = false
                      \/ Enemy.alive (Combat.enemy (self s')) = false
                  | Done (Some o) s' =>
                      o = escaped /\ Player.alive (Combat.player (self s')) = true
                      /\ Enemy.alive (Combat.enemy (self s')) = true
                  | Raised e _ => e = IndexError \/ e = SystemExit 0
                  | OutOfFuel => False
                  end).
  { unfold rest_of_pass. unfold bind at 1.
    destruct (revert_defend_frame s2) as (s3 & -> & Hin3 & _).
    unfold bind at 1, get_enemy.
    destruct (Enemy.alive (Combat.enemy (self s3))) eqn:He3; simpl; [|by right].
    unfold enemy_acts, bind at 1.
    pose proof (enemy_turn_frame rand s3) as Het.
    destruct (enemy_turn rand s3) as [[] s4|ex s4|]; [| done | done].
    destruct Het as [Hin4 _].
    unfold bind at 1, get_player.
    destruct (Player.alive (Combat.player (self s4))) eqn:Hp4; simpl; [|by left].
    unfold bind at 1, incr_turn_count. apply IH. simpl. rewrite Hin4, Hin3. lia. }
  destruct Hpt as [-> | [-> Hself]]; [exact Hrest|].
  unfold ret. rewrite Hself. simpl. auto.
Qed.

(** X15.  [Combat.run] always stops on a finite input.  When it returns, it
    returns ['escaped'] (both sides alive), ['player_dead'] (the player is
    not alive) or ['enemy_dead'] (the enemy is not alive and the player is),
    never [None]; when it raises, the exception is the [IndexError] of a
    blank command or the [SystemExit(0)] of the end of the input. *)
Theorem run_outcome s :
  match run rand s with
  | Done r s' =>
      let p' := Combat.player (self s') in
      let e' := Combat.enemy (self s') in
      (r = Some escaped /\ Player.alive p' = true /\ Enemy.alive e' = true)
      \/ (r = Some player_dead /\ Player.alive p' = false)
      \/ (r = Some enemy_dead /\ Player.alive p' = true /\ Enemy.alive e' = false)
  | Raised e _ => e = IndexError \/ e = SystemExit 0
  | OutOfFuel => False
  end.
Proof.
  unfold run, bind.
  pose proof (run_loop_outcome (S (length (stdin s))) s (Nat.lt_succ_diag_r _)) as H.
  destruct (run_loop rand (S (length (stdin s))) s) as [[o|] s1|ex s1|];
    [| |exact H|exact H].
  - destruct H as (-> & Hp & He). unfold ret. left. auto.
  - pose proof (run_epilogue_outcome s1) as He. simpl in He.
    destruct (run_epilogue rand s1) as [r s2| |]; [|done|done].
    destruct He as [(_ & -> & Hd) | [(_ & _ & -> & Ha & Hd) | (Hp & He & _)]].
    + right. left. auto.
    + right. right. auto.
    + destruct H; congruence.
Qed.

End Fights.

Ltac stable_cases :=
  constructor; intros;
  unfold Player.modify_health, Player.modify_sanity, Inventory.add in *;
  try case_match; simpl in *.

Lemma health_in_bounds_stable :
  combat_stable (fun p => 0 <= Player.health p <= Player.max_health p).
Proof. stable_cases; lia. Qed.

Lemma extracted_stable :
  combat_stable (fun p => is_Some (Player.class_resource p !! "extracted")).
Proof. stable_cases; try assumption. rewrite lookup_insert_eq. eauto. Qed.

Lemma story_flag_stable (key : string) (v : option PyVal) :
  key <> "defend_tmp" ->
  combat_stable (fun p => Player.flags p !! key = v).
Proof.
  intros Hk. stable_cases; try assumption.
  - by rewrite lookup_insert_ne.
  - by rewrite lookup_delete_ne.
Qed.

Lemma identity_stable (p0 : Player.t) :
  combat_stable (fun p =>
    Player.name p = Player.name p0 /\ Player.cls p = Player.cls p0
    /\ Player.class_name p = Player.class_name p0
    /\ Player.equipped p = Player.equipped p0
    /\ Player.strength p0 <= Player.strength p
    /\ Player.magic p0 <= Player.magic p
    /\ Player.max_health p0 <= Player.max_health p
    /\ Player.level p0 <= Player.level p).
Proof. stable_cases; repeat split; try tauto; lia. Qed.

Lemma from_catalog_stable : combat_stable (fun p => from_catalog (Player.inventory p)).
Proof.
  stable_cases; try assumption.
  - apply remove_Some in H as (pre & post & Hitems & -> & _). unfold from_catalog in *.
    rewrite Hitems in H0. apply Forall_app in H0 as [Hpre Hpost].
    apply Forall_app. split; [assumption|]. by inversion Hpost.
  - unfold from_catalog in *. apply Forall_app. split; [assumption|].
    constructor; [|constructor]. destruct H as [-> | ->]; reflexivity.
Qed.

(** X16.  A fight keeps the health within [0 .. max_health]: if it is so
    when [Combat.run] starts, it is so when [run] stops, with the
    [max_health] of the end (level-ups raise it). *)
Theorem run_keeps_health_in_bounds (rand : nat -> Z) (s : State) :
  0 <= Player.health (Combat.player (self s)) <= Player.max_health (Combat.player (self s)) ->
  ends_with rand s (fun s' =>
    0 <= Player.health (Combat.player (self s'))
      <= Player.max_health (Combat.player (self s'))).
Proof. apply (run_stable rand _ health_in_bounds_stable). Qed.

(** A Night Surgeon defends, is hit, and runs. *)
Lemma run_keeps_health_in_bounds_witness :
  ends_with (tape [9; 9; 0; 19; 0])
    (start (Player.init "Tester" (CLASS_KEY_MAP night_surgeon)) Token_Thief
       ["defend"; "run"])
    (fun s' =>
       0 <= Player.health (Combat.player (self s'))
         <= Player.max_health (Combat.player (self s'))).
Proof.
  apply (run_keeps_health_in_bounds (tape [9; 9; 0; 19; 0])
           (start (Player.init "Tester" (CLASS_KEY_MAP night_surgeon)) Token_Thief
              ["defend"; "run"])).
  simpl. lia.
Defined.

(** X17.  A fight never changes the player's name, class or equipped item,
    and never lowers strength, magic, [max_health] or level. *)
Theorem run_never_lowers_the_stats (rand : nat -> Z) (s : State) :
  ends_with rand s (fun s' =>
    let p := Combat.player (self s) in
    let p' := Combat.player (self s') in
    Player.name p' = Player.name p /\ Player.cls p' = Player.cls p
    /\ Player.class_name p' = Player.class_name p
    /\ Player.equipped p' = Player.equipped p
    /\ Player.strength p <= Player.strength p'
    /\ Player.magic p <= Player.magic p'
    /\ Player.max_health p <= Player.max_health p'
    /\ Player.level p <= Player.level p').
Proof.
  apply (run_stable rand _ (identity_stable (Combat.player (self s))) s).
  repeat split; lia.
Qed.

(** X18.  A fight leaves the story flags alone: every key of
    [player.flags] other than ['defend_tmp'] holds after [Combat.run] what it
    held before. *)
Theorem run_keeps_story_flags (rand : nat -> Z) (s : State) (key : string) :
  key <> "defend_tmp" ->
  ends_with rand s (fun s' =>
    Player.flags (Combat.player (self s')) !! key
    = Player.flags (Combat.player (self s)) !! key).
Proof.
  intros Hk. exact (run_stable rand _ (story_flag_stable key _ Hk) s eq_refl).
Qed.

Lemma run_keeps_story_flags_witness :
  let s := start (Player.init "Tester" (CLASS_KEY_MAP night_surgeon)) Token_Thief
             ["defend"; "run"] in
  ends_with (tape [9; 9; 0; 19; 0]) s (fun s' =>
    Player.flags (Combat.player (self s')) !! "helped_child"
    = Player.flags (Combat.player (self s)) !! "helped_child").
Proof.
  apply (run_keeps_story_flags (tape [9; 9; 0; 19; 0])
           (start (Player.init "Tester" (CLASS_KEY_MAP night_surgeon)) Token_Thief
              ["defend"; "run"]) "helped_child").
  discriminate.
Defined.

(** X19.  A fight keeps the inventory made of catalog items: items are only
    taken out by [remove], and only Fear Shards and Hope Seeds come in. *)
Theorem run_keeps_the_inventory_from_the_catalog (rand : nat -> Z) (s : State) :
  from_catalog (Player.inventory (Combat.player (self s))) ->
  ends_with rand s (fun s' =>
    from_catalog (Player.inventory (Combat.player (self s')))).
Proof. apply (run_stable rand _ from_catalog_stable). Qed.

Lemma run_keeps_the_inventory_from_the_catalog_witness :
  let p := Player.set_inventory starter_inventory
             (Player.init "Tester" (CLASS_KEY_MAP night_surgeon)) in
  ends_with (tape [9; 9; 0; 19; 0]) (start p Token_Thief ["use calm mist"; "run"])
    (fun s' => from_catalog (Player.inventory (Combat.player (self s')))).
Proof.
  apply (run_keeps_the_inventory_from_the_catalog (tape [9; 9; 0; 19; 0])
           (start (Player.set_inventory starter_inventory
                     (Player.init "Tester" (CLASS_KEY_MAP night_surgeon)))
              Token_Thief ["use calm mist"; "run"])).
  repeat constructor.
Defined.

(** ** Specials, items and the reward *)

Lemma d20_range rand n : 1 <= d20 rand n <= 20.
Proof. unfold d20. pose proof (Z.mod_pos_bound (rand n) 20). lia. Qed.

Section Turns.

Local Opaque Z.add Z.sub Z.mul Z.quot Z.div Z.modulo Z.max Z.min Z.opp Z.pow.
Local Opaque Z.geb Z.gtb Z.leb Z.ltb Z.eqb Z.to_nat.
Local Opaque split strip lower join_space.

Variable rand : nat -> Z.

Ltac unfold_monad :=
  unfold prompt, input, choice, randint, roll, random_k, draw, print,
    get_player, get_enemy, get_rewrite_effects,
    set_player, set_enemy, set_rewrite_effects, bind, ret, raise.

Ltac read_command Hin Hsplit :=
  unfold show_status, player_turn; unfold_monad; simpl;
  rewrite Hin; simpl; rewrite Hsplit.

(** X6.  [use <name>] with an Elixir, a Mist or a Shard in the inventory
    takes out the first item of that name (up to letter case) and applies
    its effect: 30 health through [modify_health], 25 sanity through
    [modify_sanity], or [20 + int(magic * 0.5)] damage to the enemy; it rolls
    no dice and returns [None]. *)
Theorem using_a_live_item (s : State) (line : string)
    (rest : list string) (tok : string) (arg : string) (args : list string)
    (it : Item.t) (left_over : Inventory.t) (fn : UseFn) :
  let p := Combat.player (self s) in
  let e := Combat.enemy (self s) in
  let c := self s in
  let p1 := Player.set_inventory left_over p in
  let dmg := 20 + int_times_0_5 (Player.magic p) in
  stdin s = line :: rest ->
  split (strip line) = tok :: arg :: args ->
  lower tok = "use" ->
  Inventory.remove (join_space (arg :: args)) (Player.inventory p) = Some (it, left_over) ->
  Item.use_fn it = Some fn ->
  player_turn rand s =
    Done None
      (mkState
         (Combat.mk
            (match fn with
             | heal_potion_use => Player.modify_health 30 p1
             | sanity_potion_use => Player.modify_sanity 25 p1
             | fear_shard_use => p1
             end)
            (match fn with
             | fear_shard_use => Enemy.take_damage dmg e
             | _ => e
             end)
            (Combat.turn_count c) (Combat.rewrite_effects c))
         rest (draws s)
         (stdout s ++ prompt_lines
            ++ [match fn with
                | heal_potion_use => SayElixir 30
                | sanity_potion_use => SayCalmMist 25
                | fear_shard_use => SayFearShard (Enemy.name e) dmg
                end])).
Proof.
  intros p e c p1 dmg Hin Hsplit Hlow Hrm Hfn. subst p e c p1 dmg.
  read_command Hin Hsplit. rewrite Hlow. simpl.
  rewrite Hrm. unfold item_use. rewrite Hfn. unfold_monad.
  destruct fn; simpl; unfold prompt_lines; rewrite <- ?app_assoc; reflexivity.
Qed.

(** X7.  [use <name>] with an item that has no use function (a Hope Seed, a
    Broker Ledger) takes the item out of the inventory all the same and
    changes nothing else. *)
Theorem using_an_inert_item_destroys_it (s : State) (line : string)
    (rest : list string) (tok : string) (arg : string) (args : list string)
    (it : Item.t) (left_over : Inventory.t) :
  let p := Combat.player (self s) in
  let c := self s in
  stdin s = line :: rest ->
  split (strip line) = tok :: arg :: args ->
  lower tok = "use" ->
  Inventory.remove (join_space (arg :: args)) (Player.inventory p) = Some (it, left_over) ->
  Item.use_fn it = None ->
  player_turn rand s =
    Done None
      (mkState
         (Combat.mk (Player.set_inventory left_over p) (Combat.enemy c)
            (Combat.turn_count c) (Combat.rewrite_effects c))
         rest (draws s)
         (stdout s ++ prompt_lines ++ [SayNothingHappens (Item.name it)])).
Proof.
  intros p c Hin Hsplit Hlow Hrm Hfn. subst p c.
  read_command Hin Hsplit. rewrite Hlow. simpl.
  rewrite Hrm. unfold item_use. rewrite Hfn. unfold_monad. simpl.
  unfold prompt_lines. rewrite <- ?app_assoc. reflexivity.
Qed.

(** X8.  [use] with no name, or with a name no item has, leaves the fight as
    it was, rolls no dice, says so and returns [None]. *)
Theorem using_a_missing_item_changes_nothing (s : State) (line : string)
    (rest : list string) (tok : string) (args : list string) :
  let p := Combat.player (self s) in
  stdin s = line :: rest ->
  split (strip line) = tok :: args ->
  lower tok = "use" ->
  Inventory.remove (join_space args) (Player.inventory p) = None ->
  player_turn rand s =
    Done None
      (mkState (self s) rest (draws s)
         (stdout s ++ prompt_lines
            ++ [match args with [] => SayUseWhat | _ => SayNoItem (join_space args) end])).
Proof.
  intros p Hin Hsplit Hlow Hrm. subst p.
  read_command Hin Hsplit. rewrite Hlow. simpl.
  destruct args as [|arg args]; simpl.
  - unfold prompt_lines. rewrite <- ?app_assoc. reflexivity.
  - rewrite Hrm. simpl. unfold prompt_lines. rewrite <- ?app_assoc. reflexivity.
Qed.

(** X9.  The Night Surgeon's extraction: without the mark ['extracted'] in
    [class_resource], a roll of [d20 + magic >= 15] adds a Fear Shard and
    sets the mark, a lower roll changes nothing; with the mark, the special
    is refused without a roll; and no fight ever clears the mark. *)
Theorem night_surgeon_extracts_once (s : State) :
  let p := Combat.player (self s) in
  let c := self s in
  let d := d20 rand (draws s) in
  let mark := Player.class_resource p !! "extracted" in
  Player.cls p = night_surgeon ->
  (mark = None -> 15 <= d + Player.magic p ->
     player_special rand s =
       Done None
         (mkState
            (Combat.mk
               (Player.set_class_resource (<["extracted" := true]> (Player.class_resource p))
                  (Player.set_inventory (Player.inventory p ++ [Fear_Shard]) p))
               (Combat.enemy c) (Combat.turn_count c) (Combat.rewrite_effects c))
            (stdin s) (S (draws s)) (stdout s ++ [SayExtracted])))
  /\ (mark = None -> d + Player.magic p < 15 ->
      player_special rand s =
        Done None (mkState c (stdin s) (S (draws s)) (stdout s ++ [SayExtractionFalters])))
  /\ (is_Some mark ->
      player_special rand s =
        Done None (mkState c (stdin s) (draws s) (stdout s ++ [SayNoTools])))
  /\ (is_Some mark ->
      ends_with rand s (fun s' =>
        is_Some (Player.class_resource (Combat.player (self s')) !! "extracted"))).
Proof.
  intros p c d mark Hcls. subst p c d mark. unfold d20.
  repeat split.
  - intros Hm H. unfold player_special. unfold_monad. simpl. rewrite Hcls, Hm.
    apply geb_true_iff in H. rewrite H. reflexivity.
  - intros Hm H. unfold player_special. unfold_monad. simpl. rewrite Hcls, Hm.
    apply geb_false_iff in H. rewrite H. reflexivity.
  - intros [v Hm]. unfold player_special. unfold_monad. simpl. rewrite Hcls, Hm.
    reflexivity.
  - intros Hm. exact (run_stable rand _ extracted_stable s Hm).
Qed.

(** X12.  The Insomniac's onslaught is refused when the sanity is -30 or
    less; otherwise it costs 20 sanity, which stays above -50, leaves
    [alive] and the health as they were, rolls no dice and deals
    [int(strength * 2.5)] damage. *)
Theorem insomniac_special_never_kills (s : State) :
  let p := Combat.player (self s) in
  let e := Combat.enemy (self s) in
  Player.cls p = insomniac ->
  (Player.sanity p <= -30 ->
     player_special rand s =
       Done None (mkState (self s) (stdin s) (draws s) (stdout s ++ [SayCollapseRisk])))
  /\ (-30 < Player.sanity p ->
      exists s',
        player_special rand s = Done None s'
        /\ Player.sanity (Combat.player (self s')) = Player.sanity p - 20
        /\ -50 < Player.sanity (Combat.player (self s'))
        /\ Player.alive (Combat.player (self s')) = Player.alive p
        /\ Player.health (Combat.player (self s')) = Player.health p
        /\ Combat.enemy (self s') = Enemy.take_damage (int_times_2_5 (Player.strength p)) e
        /\ draws s' = draws s).
Proof.
  intros p e Hcls. subst p e. unfold player_special. unfold_monad. simpl. rewrite Hcls.
  split; intros H.
  - assert (E : (Player.sanity (Combat.player (self s)) - 20 <=? -50) = true)
      by (apply Z.leb_le; lia).
    rewrite E. reflexivity.
  - assert (E : (Player.sanity (Combat.player (self s)) - 20 <=? -50) = false)
      by (apply Z.leb_gt; lia).
    rewrite E. eexists. split; [reflexivity|]. simpl.
    unfold Player.modify_sanity. simpl.
    match goal with
    | |- context [?a <=? ?b] => destruct (Z.leb_spec a b); [lia|]
    end.
    simpl. repeat split; lia.
Qed.

(** X13.  The special of the other three classes: with magic below 10 it
    does nothing and rolls nothing; from magic 10 on it rolls, and deals
    [int(magic * 1.5)] damage exactly when [d20 + magic >= 12], which from
    magic 11 on is every roll. *)
Theorem generic_special (s : State) :
  let p := Combat.player (self s) in
  let e := Combat.enemy (self s) in
  let c := self s in
  let d := d20 rand (draws s) in
  let hit :=
    mkState (Combat.mk p (Enemy.take_damage (int_times_1_5 (Player.magic p)) e)
               (Combat.turn_count c) (Combat.rewrite_effects c))
      (stdin s) (S (draws s))
      (stdout s ++ [SayDreamSpark (int_times_1_5 (Player.magic p))]) in
  Player.cls p = broker_novice \/ Player.cls p = night_watch
    \/ Player.cls p = somnomancer ->
  (Player.magic p < 10 ->
     player_special rand s =
       Done None (mkState c (stdin s) (draws s) (stdout s ++ [SayNothingNotable])))
  /\ (10 <= Player.magic p -> d + Player.magic p < 12 ->
      player_special rand s =
        Done None (mkState c (stdin s) (S (draws s)) (stdout s ++ [SayNothingNotable])))
  /\ (10 <= Player.magic p -> 12 <= d + Player.magic p ->
      player_special rand s = Done None hit)
  /\ (11 <= Player.magic p -> player_special rand s = Done None hit).
Proof.
  intros p e c d hit Hcls. subst p e c hit.
  pose proof (d20_range rand (draws s)) as Hd. fold d in Hd. subst d. unfold d20 in *.
  assert (Hlow : Player.magic (Combat.player (self s)) < 10 ->
                 (Player.magic (Combat.player (self s)) >=? 10) = false)
    by (intros; apply geb_false_iff; lia).
  assert (Hhigh : 10 <= Player.magic (Combat.player (self s)) ->
                  (Player.magic (Combat.player (self s)) >=? 10) = true)
    by (intros; apply geb_true_iff; lia).
  repeat split; intros.
  - unfold player_special. unfold_monad. simpl.
    destruct Hcls as [-> | [-> | ->]]; rewrite Hlow by assumption; reflexivity.
  - assert (E : (1 + rand (draws s) mod 20 + Player.magic (Combat.player (self s)) >=? 12)
                = false) by (apply geb_false_iff; lia).
    unfold player_special. unfold_monad. simpl.
    destruct Hcls as [-> | [-> | ->]]; rewrite Hhigh by assumption; simpl; rewrite E;
      reflexivity.
  - assert (E : (1 + rand (draws s) mod 20 + Player.magic (Combat.player (self s)) >=? 12)
                = true) by (apply geb_true_iff; lia).
    unfold player_special. unfold_monad. simpl.
    destruct Hcls as [-> | [-> | ->]]; rewrite Hhigh by assumption; simpl; rewrite E;
      reflexivity.
  - assert (E : (1 + rand (draws s) mod 20 + Player.magic (Combat.player (self s)) >=? 12)
                = true) by (apply geb_true_iff; lia).
    unfold player_special. unfold_monad. simpl.
    destruct Hcls as [-> | [-> | ->]]; rewrite Hhigh by lia; simpl; rewrite E;
      reflexivity.
Qed.

(** X20.  The reward of a won fight: [20 * difficulty] to
    [20 * difficulty + 20] XP through [gain_xp], and one Fear Shard or Hope
    Seed appended to the inventory exactly when the d100 is below
    [30 * difficulty]; the enemy and the rest of the fight stay as they
    are. *)
Theorem victory_reward (s : State) :
  let p := Combat.player (self s) in
  let e := Combat.enemy (self s) in
  let c := self s in
  let xp := 20 * Enemy.difficulty e + rand (draws s) mod 21 in
  let d100 := 1 + rand (S (draws s)) mod 100 in
  let p1 := fst (Player.gain_xp xp p) in
  Player.alive p = true -> Enemy.alive e = false ->
  20 * Enemy.difficulty e <= xp <= 20 * Enemy.difficulty e + 20
  /\ 1 <= d100 <= 100
  /\ (30 * Enemy.difficulty e <= d100 ->
      exists out,
        run_epilogue rand s =
          Done (Some enemy_dead)
            (mkState (Combat.mk p1 e (Combat.turn_count c) (Combat.rewrite_effects c))
               (stdin s) (S (S (draws s))) out))
  /\ (d100 < 30 * Enemy.difficulty e ->
      exists drop out,
        (drop = Fear_Shard \/ drop = Hope_Seed)
        /\ run_epilogue rand s =
             Done (Some enemy_dead)
               (mkState
                  (Combat.mk (Player.set_inventory (Player.inventory p1 ++ [drop]) p1) e
                     (Combat.turn_count c) (Combat.rewrite_effects c))
                  (stdin s) (S (S (S (draws s)))) out)).
Proof.
  intros p e c xp d100 p1 Hp He. subst p e c xp d100 p1.
  pose proof (Z.mod_pos_bound (rand (draws s)) 21 ltac:(lia)) as Hb.
  pose proof (Z.mod_pos_bound (rand (S (draws s))) 100 ltac:(lia)) as Hd.
  split; [lia|]. split; [lia|].
  assert (Hxp : 20 * Enemy.difficulty (Combat.enemy (self s))
                + (0 + rand (draws s) mod (20 - 0 + 1))
                = 20 * Enemy.difficulty (Combat.enemy (self s)) + rand (draws s) mod 21).
  { change (20 - 0 + 1) with 21. lia. }
  split; intros H.
  - unfold run_epilogue. unfold_monad. simpl. rewrite Hp. simpl. rewrite He. simpl.
    rewrite Hxp.
    destruct (Player.gain_xp _ (Combat.player (self s))) as [p1 out1]. simpl.
    rewrite print_all_eq. simpl.
    apply Z.ltb_ge in H. rewrite H. simpl. eexists. reflexivity.
  - unfold run_epilogue. unfold_monad. simpl. rewrite Hp. simpl. rewrite He. simpl.
    rewrite Hxp.
    destruct (Player.gain_xp _ (Combat.player (self s))) as [p1 out1]. simpl.
    rewrite print_all_eq. simpl.
    apply Z.ltb_lt in H. rewrite H. simpl.
    destruct (Z.to_nat (rand (S (S (draws s))) mod Z.of_nat 2)) as [|[|[|?]]];
      eexists _, _; (split; [|reflexivity]); auto.
Qed.

End Turns.

(** A Night Surgeon with the starter inventory types [use dream elixir]
    after losing 50 health. *)
Lemma using_a_live_item_witness :
  let p := Player.modify_health (-50)
             (Player.set_inventory starter_inventory
                (Player.init "Tester" (CLASS_KEY_MAP night_surgeon))) in
  let s := start p Token_Thief ["use dream elixir"] in
  player_turn (tape []) s =
    Done None
      (mkState
         (Combat.mk
            (Player.modify_health 30 (Player.set_inventory [Calm_Mist; Broker_Ledger] p))
            Token_Thief 0 ∅)
         [] 0 (prompt_lines ++ [SayElixir 30])).
Proof.
  apply (using_a_live_item (tape [])
           (start (Player.modify_health (-50)
                     (Player.set_inventory starter_inventory
                        (Player.init "Tester" (CLASS_KEY_MAP night_surgeon))))
              Token_Thief ["use dream elixir"])
           "use dream elixir" [] "use" "dream" ["elixir"] Dream_Elixir
           [Calm_Mist; Broker_Ledger] heal_potion_use); reflexivity.
Defined.

(** The same Night Surgeon types [use broker ledger]: the ledger is gone. *)
Lemma using_an_inert_item_destroys_it_witness :
  let p := Player.set_inventory starter_inventory
             (Player.init "Tester" (CLASS_KEY_MAP night_surgeon)) in
  let s := start p Token_Thief ["use broker ledger"] in
  player_turn (tape []) s =
    Done None
      (mkState
         (Combat.mk (Player.set_inventory [Dream_Elixir; Calm_Mist] p) Token_Thief 0 ∅)
         [] 0 (prompt_lines ++ [SayNothingHappens "Broker Ledger"])).
Proof.
  apply (using_an_inert_item_destroys_it (tape [])
           (start (Player.set_inventory starter_inventory
                     (Player.init "Tester" (CLASS_KEY_MAP night_surgeon)))
              Token_Thief ["use broker ledger"])
           "use broker ledger" [] "use" "broker" ["ledger"] Broker_Ledger
           [Dream_Elixir; Calm_Mist]); reflexivity.
Defined.

Lemma using_a_missing_item_changes_nothing_witness :
  let s := start (Player.init "Tester" (CLASS_KEY_MAP night_surgeon)) Token_Thief
             ["use hope seed"] in
  player_turn (tape []) s =
    Done None (mkState (self s) [] 0 (prompt_lines ++ [SayNoItem "hope seed"])).
Proof.
  apply (using_a_missing_item_changes_nothing (tape [])
           (start (Player.init "Tester" (CLASS_KEY_MAP night_surgeon)) Token_Thief
              ["use hope seed"])
           "use hope seed" [] "use" ["hope"; "seed"]); reflexivity.
Defined.

(** A Night Surgeon (magic 6) rolls a 10: 16, the extraction succeeds. *)
Lemma night_surgeon_extracts_once_witness :
  let p := Player.init "Tester" (CLASS_KEY_MAP night_surgeon) in
  let s := start p Token_Thief [] in
  player_special (tape [9]) s =
    Done None
      (mkState
         (Combat.mk
            (Player.set_class_resource (<["extracted" := true]> ∅)
               (Player.set_inventory [Fear_Shard] p))
            Token_Thief 0 ∅)
         [] 1 [SayExtracted]).
Proof.
  apply (night_surgeon_extracts_once (tape [9])
           (start (Player.init "Tester" (CLASS_KEY_MAP night_surgeon)) Token_Thief [])).
  - reflexivity.
  - reflexivity.
  - vm_compute. discriminate.
Defined.

(** An Insomniac (sanity 120, strength 10) deals 25. *)
Lemma insomniac_special_never_kills_witness :
  let p := Player.init "Tester" (CLASS_KEY_MAP insomniac) in
  let s := start p Token_Thief [] in
  exists s',
    player_special (tape []) s = Done None s'
    /\ Player.sanity (Combat.player (self s')) = Player.sanity p - 20
    /\ -50 < Player.sanity (Combat.player (self s'))
    /\ Player.alive (Combat.player (self s')) = Player.alive p
    /\ Player.health (Combat.player (self s')) = Player.health p
    /\ Combat.enemy (self s')
       = Enemy.take_damage (int_times_2_5 (Player.strength p)) Token_Thief
    /\ draws s' = 0%nat.
Proof.
  apply (insomniac_special_never_kills (tape [])
           (start (Player.init "Tester" (CLASS_KEY_MAP insomniac)) Token_Thief [])).
  - reflexivity.
  - vm_compute. reflexivity.
Defined.

(** A Somnomancer (magic 11) hits on the lowest roll. *)
Lemma generic_special_witness :
  let p := Player.init "Tester" (CLASS_KEY_MAP somnomancer) in
  let s := start p Token_Thief [] in
  player_special (tape [0]) s =
    Done None
      (mkState (Combat.mk p (Enemy.take_damage 16 Token_Thief) 0 ∅) [] 1
         [SayDreamSpark 16]).
Proof.
  apply (generic_special (tape [0])
           (start (Player.init "Tester" (CLASS_KEY_MAP somnomancer)) Token_Thief [])).
  - right. right. reflexivity.
  - vm_compute. discriminate.
Defined.

(** A Lucid Magician (magic 12) rolls a 10. *)
Lemma rewrite_sets_the_flag_witness :
  let p := Player.init "Tester" (CLASS_KEY_MAP lucid_magician) in
  let s := start p Token_Thief [] in
  player_special (tape [9]) s =
    Done None
      (mkState (Combat.mk p Token_Thief 0 (<["enemy_miss_next" := true]> ∅)) [] 1
         [SayRewrite]).
Proof.
  apply (rewrite_sets_the_flag (tape [9])
           (start (Player.init "Tester" (CLASS_KEY_MAP lucid_magician)) Token_Thief [])).
  - reflexivity.
  - reflexivity.
  - vm_compute. discriminate.
Defined.

(** The Token Thief's turn with the flag pending. *)
Lemma pending_flag_skips_the_enemy_turn_witness :
  let s := with_rewrite_effects (<["enemy_miss_next" := true]> ∅)
             (start (Player.init "Tester" (CLASS_KEY_MAP lucid_magician)) Token_Thief []) in
  enemy_turn (tape [9; 9; 0]) s =
    Done tt
      (mkState
         (Combat.mk (Combat.player (self s)) Token_Thief 0
            (delete "enemy_miss_next" (<["enemy_miss_next" := true]> ∅)))
         [] 0 [SayRewriteHolds]).
Proof.
  exact (pending_flag_skips_the_enemy_turn (tape [9; 9; 0])
           (with_rewrite_effects (<["enemy_miss_next" := true]> ∅)
              (start (Player.init "Tester" (CLASS_KEY_MAP lucid_magician)) Token_Thief []))
           eq_refl eq_refl).
Defined.

(** A pass of the loop that starts with [defend]. *)
Lemma defend_changes_nothing_for_the_enemy_witness :
  let s := start (Player.init "Tester" (CLASS_KEY_MAP night_surgeon)) Token_Thief
             ["defend"] in
  run_loop (tape [9; 9; 0]) 1 s =
    enemy_acts (tape [9; 9; 0]) 0
      (mkState (self s) [] 0 (status_lines s ++ prompt_lines ++ [SayBrace])).
Proof.
  apply (defend_changes_nothing_for_the_enemy (tape [9; 9; 0])
           (start (Player.init "Tester" (CLASS_KEY_MAP night_surgeon)) Token_Thief
              ["defend"])
           "defend" [] "defend" [] 0); reflexivity.
Defined.

(** A Token Thief (difficulty 1) is down; the draws give 7 bonus XP and a
    d100 of 50: 27 XP and no drop. *)
Lemma victory_reward_witness :
  let p := Player.init "Tester" (CLASS_KEY_MAP night_surgeon) in
  let e := damages [35] Token_Thief in
  let s := mkState (Combat.mk p e 3 ∅) [] 0 [] in
  exists out,
    run_epilogue (tape [7; 49]) s =
      Done (Some enemy_dead)
        (mkState (Combat.mk (fst (Player.gain_xp 27 p)) e 3 ∅) [] 2 out).
Proof.
  apply (victory_reward (tape [7; 49])
           (mkState (Combat.mk (Player.init "Tester" (CLASS_KEY_MAP night_surgeon))
                       (damages [35] Token_Thief) 3 ∅) [] 0 [])).
  - reflexivity.
  - reflexivity.
  - vm_compute. discriminate.
Defined.

(** ** Saved games *)

Lemma class_of_saved_key k : class_of_saved (key_string k) = CLASS_KEY_MAP k.
Proof. destruct k; reflexivity. Qed.

Lemma load_inventory_app names : forall items,
  load_inventory names items = items ++ omap ITEMS names.
Proof.
  induction names as [|n names IH]; intros items; simpl.
  - by rewrite app_nil_r.
  - destruct (ITEMS n) as [it|]; rewrite IH; [|reflexivity].
    unfold Inventory.add. by rewrite <- app_assoc.
Qed.

Lemma omap_ITEMS_catalog items :
  from_catalog items -> omap ITEMS (map Item.name items) = items.
Proof.
  induction 1 as [|it items Hit Hrest IH]; simpl; [reflexivity|].
  rewrite Hit. f_equal. exact IH.
Qed.

(** X21.  Saving and loading gives the player back, with the name, the
    class, every stat, level, XP, the inventory in its order and the flags,
    for a player whose items are catalog items and whose class name is the
    one of its class; but the loaded player is alive, has nothing equipped
    and an empty [class_resource], whatever the saved one had. *)
Theorem save_then_load (p : Player.t) :
  from_catalog (Player.inventory p) ->
  Player.class_name p = cd_name (CLASS_KEY_MAP (Player.cls p)) ->
  load_game (Some (save_game p)) =
    Some (Player.mk (Player.name p) (Player.cls p) (Player.class_name p)
            (Player.max_health p) (Player.health p) (Player.sanity p)
            (Player.strength p) (Player.agility p) (Player.magic p)
            (Player.level p) (Player.xp p) (Player.inventory p)
            None true (Player.flags p) ∅).
Proof.
  intros Hcat Hname. unfold load_game, save_game. simpl.
  rewrite class_of_saved_key, load_inventory_app, (omap_ITEMS_catalog _ Hcat), Hname.
  simpl. destruct (Player.cls p); reflexivity.
Qed.

(** A Night Surgeon brought to 0 health and saved comes back with 0 health,
    alive. *)
Lemma save_then_load_witness :
  let p := Player.modify_health (-90)
             (Player.set_inventory starter_inventory
                (Player.init "Tester" (CLASS_KEY_MAP night_surgeon))) in
  Player.alive p = false
  /\ load_game (Some (save_game p)) =
       Some (Player.mk "Tester" night_surgeon "Night Surgeon" 90 0 80 8 6 6 1 0
               starter_inventory None true ∅ ∅).
Proof.
  split; [reflexivity|].
  apply (save_then_load
           (Player.modify_health (-90)
              (Player.set_inventory starter_inventory
                 (Player.init "Tester" (CLASS_KEY_MAP night_surgeon))))).
  - repeat constructor.
  - reflexivity.
Defined.

(** *** The file on disk *)




Lemma flags_of_entries_list (l : list (string * PyVal)) :
  flags_of_entries (map (fun kv => (fst kv, json_of_val (snd kv))) l)
  = Some (list_to_map l).
Proof.
  induction l as [|[k v] l IH]; simpl; [reflexivity|].
  rewrite IH. destruct v; reflexivity.
Qed.

Lemma load_items_names names :
  load_items (map JStr names) [] = inr (load_inventory names []).
Proof.
  generalize (@nil Item.t). induction names as [|n names IH]; intros acc; simpl;
    [reflexivity|].
  destruct (ITEMS n); apply IH.
Qed.

(** The two levels agree: the document of a saved dictionary loads to the
    player [load_game] gives for the dictionary. *)
Lemma saved_document_loads (d : SaveData) :
  OnDisk.load_game (Parsed (json_of_save d))
  = match load_game (Some d) with
    | Some p => Loaded p
    | None => NoSave
    end.
Proof.
  unfold OnDisk.load_game, json_of_save, item. simpl.
  rewrite load_items_names. simpl.
  rewrite flags_of_entries_list, list_to_map_to_list. reflexivity.
Qed.







(** Each outcome is reached: no file; a file that is no JSON; a document
    that is a list; a document with a class and no name; a class key that is
    a list; an inventory that is a number; a health that is a string; and a
    document with the ten subscripted keys only, whose class key is unknown
    and which loads as a Night Surgeon with the saved 0 health, alive. *)
Example load_game_outcomes :
  let numbers := [("health", JInt 0); ("max_health", JInt 60); ("sanity", JInt 5);
                  ("strength", JInt 1); ("agility", JInt 2); ("magic", JInt 3);
                  ("level", JInt 4); ("xp", JInt 7)] in
  OnDisk.load_game NoFile = NoSave
  /\ OnDisk.load_game NotJson = LoadRaised ValueError
  /\ OnDisk.load_game (Parsed (JArr [])) = LoadRaised TypeError
  /\ OnDisk.load_game (Parsed (JObj [("class", JStr "insomniac")]))
     = LoadRaised (KeyError "name")
  /\ OnDisk.load_game (Parsed (JObj [("class", JArr [])])) = LoadRaised TypeError
  /\ OnDisk.load_game
       (Parsed (JObj (("class", JStr "insomniac") :: ("name", JStr "Ann")
                        :: numbers ++ [("inventory", JInt 3)])))
     = LoadRaised TypeError
  /\ OnDisk.load_game
       (Parsed (JObj (("class", JStr "insomniac") :: ("name", JStr "Ann")
                        :: ("health", JStr "full") :: numbers)))
     = LoadedUntyped
  /\ OnDisk.load_game
       (Parsed (JObj (("class", JStr "dreamer") :: ("name", JStr "Ann") :: numbers)))
     = Loaded (Player.mk "Ann" night_surgeon "Night Surgeon" 60 0 5 1 2 3 4 7
                 [] None true ∅ ∅).
Proof. vm_compute. repeat split. Qed.

(** ** The scenes *)

Lemma set_inventory_twice a b p :
  Player.set_inventory a (Player.set_inventory b p) = Player.set_inventory a p.
Proof. reflexivity. Qed.

Lemma set_inventory_same p : Player.set_inventory (Player.inventory p ++ []) p = p.
Proof. destruct p; simpl. by rewrite app_nil_r. Qed.

Lemma merchant_loop_step line lines p out :
  says_leave line = false ->
  exists out1,
    merchant_loop (line :: lines) p out =
      merchant_loop lines
        (Player.set_inventory (Player.inventory p ++ bought line) p) out1.
Proof.
  intros Hl. unfold says_leave in Hl. simpl. rewrite Hl. unfold bought.
  destruct (String.eqb (strip line) "1");
    [|destruct (String.eqb (strip line) "2");
      [|destruct (String.eqb (strip line) "3")]];
    eexists; rewrite ?set_inventory_same; reflexivity.
Qed.

Lemma merchant_loop_adds lines : forall p out,
  match read_until says_leave lines with
  | Some (before, after) =>
      exists out',
        merchant_loop lines p out =
          Returned "leave"
            (Player.set_inventory (Player.inventory p ++ flat_map bought before) p)
            after out'
  | None =>
      exists out',
        merchant_loop lines p out =
          Exited 0 (Player.set_inventory (Player.inventory p ++ flat_map bought lines) p)
            out'
  end.
Proof.
  induction lines as [|line lines IH]; intros p out.
  - simpl. eexists. by rewrite set_inventory_same.
  - simpl read_until. destruct (says_leave line) eqn:El.
    + simpl. unfold says_leave in El. rewrite El. eexists.
      by rewrite set_inventory_same.
    + destruct (merchant_loop_step line lines p out El) as [out1 ->].
      specialize (IH (Player.set_inventory (Player.inventory p ++ bought line) p) out1).
      destruct (read_until says_leave lines) as [[before after]|];
        destruct IH as [out' ->]; exists out'; simpl flat_map;
        rewrite set_inventory_twice; simpl Player.inventory;
        rewrite <- app_assoc; reflexivity.
Qed.

(** X23.  The merchant only adds: up to the first line that says [leave]
    (in any letter case), every line [1], [2] or [3] appends its item to the
    inventory, in the order typed and without limit or price; every other
    line changes nothing; nothing else of the player changes; and when no
    line says [leave] the scene ends the program with what was bought so
    far. *)
Theorem merchant_only_adds (lines : list string) (p : Player.t) (out : list SceneLine) :
  match read_until says_leave lines with
  | Some (before, after) =>
      exists out',
        merchant_scene lines p out =
          Returned "leave"
            (Player.set_inventory (Player.inventory p ++ flat_map bought before) p)
            after out'
  | None =>
      exists out',
        merchant_scene lines p out =
          Exited 0 (Player.set_inventory (Player.inventory p ++ flat_map bought lines) p)
            out'
  end.
Proof. apply merchant_loop_adds. Qed.

Lemma choice_loop_sets_one_flag lines : forall p out,
  match choice_loop lines p out with
  | Returned _ p' _ _ =>
      exists key gift,
        ((key = "helped_child" /\ gift = [Hope_Seed])
         \/ (key = "ignored_child" /\ gift = [])
         \/ (key = "exploited_child" /\ gift = [Fear_Shard]))
        /\ p' = Player.set_flags (<[key := VBool true]> (Player.flags p))
                  (Player.set_inventory (Player.inventory p ++ gift) p)
  | Exited _ p' _ => p' = p
  end.
Proof.
  induction lines as [|line lines IH]; intros p out; simpl; [reflexivity|].
  destruct (String.eqb (strip line) "1");
    [|destruct (String.eqb (strip line) "2");
      [|destruct (String.eqb (strip line) "3")]].
  - exists "helped_child", [Hope_Seed]. split; [auto|reflexivity].
  - exists "ignored_child", []. split; [auto|]. by rewrite set_inventory_same.
  - exists "exploited_child", [Fear_Shard]. split; [auto 6|reflexivity].
  - apply IH.
Qed.

(** X24.  [choice_branch] returns only after a line [1], [2] or [3], and
    then it has set exactly one of the flags [helped_child], [ignored_child]
    and [exploited_child] to [True], kept every other flag, and appended a
    Hope Seed (for helping), a Fear Shard (for exploiting) or nothing; when
    the input ends first, the player is untouched. *)
Theorem choice_branch_sets_one_flag (lines : list string) (p : Player.t)
    (out : list SceneLine) :
  match choice_branch lines p out with
  | Returned _ p' _ _ =>
      exists key gift,
        ((key = "helped_child" /\ gift = [Hope_Seed])
         \/ (key = "ignored_child" /\ gift = [])
         \/ (key = "exploited_child" /\ gift = [Fear_Shard]))
        /\ p' = Player.set_flags (<[key := VBool true]> (Player.flags p))
                  (Player.set_inventory (Player.inventory p ++ gift) p)
  | Exited _ p' _ => p' = p
  end.
Proof. apply choice_loop_sets_one_flag. Qed.

Lemma ending_loop_spec lines : forall p out,
  match ending_loop lines p out with
  | Returned e p' _ _ =>
      p' = p
      /\ (e = merchant_resell /\ has_ledger (Player.inventory p) = true
          \/ e = burned_contract \/ e = bound_contract)
  | Exited _ p' _ => p' = p
  end.
Proof.
  induction lines as [|line lines IH]; intros p out; simpl; [reflexivity|].
  destruct (String.eqb (lower (strip line)) "resell").
  - destruct (has_ledger (Player.inventory p)) eqn:E; [auto|].
    specialize (IH p (out ++ [LnPromptText "Type 'resell', 'burn', or 'bind':"] ++ [LnNoLedger])).
    rewrite app_assoc in IH.
    destruct (ending_loop lines p _); [|exact IH].
    destruct IH as [-> [[-> Hl]|H]]; [congruence|auto].
  - destruct (String.eqb (lower (strip line)) "burn"); [auto|].
    destruct (String.eqb (lower (strip line)) "bind"); [auto|].
    apply IH.
Qed.

(** X25.  The final choice never changes the player and returns one of the
    three contract endings; it returns [merchant_resell] only for a player
    who holds an item named exactly [Broker Ledger], and without one
    [resell] is refused and the choice is asked again. *)
Theorem resell_needs_the_ledger (lines : list string) (p : Player.t)
    (out : list SceneLine) :
  match ending_shopkeeper lines p out with
  | Returned e p' _ _ =>
      p' = p
      /\ (e = merchant_resell /\ has_ledger (Player.inventory p) = true
          \/ e = burned_contract \/ e = bound_contract)
  | Exited _ p' _ => p' = p
  end.
Proof. apply ending_loop_spec. Qed.

(** A Night Surgeon who used the ledger in a fight asks to resell: refused;
    then burns the contract. *)
Example no_ledger_no_resale :
  let p := Player.set_inventory starter_inventory
             (Player.init "Tester" (CLASS_KEY_MAP night_surgeon)) in
  exists s' out,
    player_turn (tape []) (start p Token_Thief ["use broker ledger"]) = Done None s'
    /\ ending_shopkeeper ["resell"; "burn"] (Combat.player (self s')) [] =
         Returned burned_contract (Combat.player (self s')) [] out
    /\ In LnNoLedger out.
Proof.
  eexists _, _. split; [vm_compute; reflexivity|]. split; [vm_compute; reflexivity|].
  simpl. auto 10.
Qed.

(** X26.  [compute_ending] never changes the player; it gives the death
    ending exactly for the end state ['dead'], whatever the flags;
    [merchant_resell] only with a ledger; and the helping, exploit and
    neutral endings only when the end state is not ['boss_defeated'] and the
    flag [defeated_contract] is not set, without reading a line. *)
Theorem compute_ending_reads_the_state (end_state : string) (lines : list string)
    (p : Player.t) (out : list SceneLine) :
  match compute_ending end_state lines p out with
  | Returned e p' rest _ =>
      p' = p
      /\ (e = death_ending <-> end_state = "dead")
      /\ (e = merchant_resell -> has_ledger (Player.inventory p) = true)
      /\ (e = helping_ending \/ e = exploit_ending \/ e = neutral_ending ->
          rest = lines /\ end_state <> "boss_defeated"
          /\ flag_set p "defeated_contract" = false)
  | Exited _ p' _ => p' = p /\ end_state <> "dead"
  end.
Proof.
  assert (Hshop : forall o,
            match ending_shopkeeper lines p o with
            | Returned e p' rest _ =>
                p' = p
                /\ e <> death_ending
                /\ (e = merchant_resell -> has_ledger (Player.inventory p) = true)
                /\ e <> helping_ending /\ e <> exploit_ending /\ e <> neutral_ending
            | Exited _ p' _ => p' = p
            end).
  { intros o. pose proof (ending_loop_spec lines p (o ++ [LnFinalChoice])) as H.
    unfold ending_shopkeeper.
    destruct (ending_loop lines p _) as [e p' rest out'|]; [|exact H].
    destruct H as [-> H]. split; [reflexivity|].
    destruct H as [[-> Hl]|[->| ->]]; repeat split; congruence. }
  unfold compute_ending.
  destruct (String.eqb_spec end_state "dead") as [->|Hd].
  - split; [reflexivity|]. split; [tauto|]. split; [discriminate|].
    intros [X|[X|X]]; discriminate X.
  - destruct (String.eqb_spec end_state "boss_defeated") as [->|Hb]; simpl.
    + specialize (Hshop out).
      destruct (ending_shopkeeper lines p out) as [e p' rest out'|]; [|auto].
      destruct Hshop as (-> & H1 & H2 & H3 & H4 & H5).
      split; [reflexivity|]. split; [tauto|]. split; [exact H2|].
      intros [X|[X|X]]; congruence.
    + destruct (flag_set p "defeated_contract") eqn:Hf.
      * specialize (Hshop out).
        destruct (ending_shopkeeper lines p out) as [e p' rest out'|]; [|auto].
        destruct Hshop as (-> & H1 & H2 & H3 & H4 & H5).
        split; [reflexivity|]. split; [tauto|]. split; [exact H2|].
        intros [X|[X|X]]; congruence.
      * destruct (flag_set p "helped_child"); [|destruct (flag_set p "exploited_child")];
          (split; [reflexivity|]); (split; [split; [discriminate|tauto]|]);
          (split; [discriminate|]); intros _; auto.
Qed.
